(** * Semantic-docstrings examples: a shallow embedding and its properties

    The three example modules of the repository are embedded here:

    - [examples/module_example.py]   ([process_message]),
    - [examples/class_example.py]    ([IdentificationAgent]),
    - [examples/function_example.py] ([calculate_discount]).

    Python values are modelled by the inductive type [pyval], a [dict] with
    string keys by a [gmap string pyval], exceptions by the type [pyexn], an
    object with mutable attributes by a record that is passed explicitly
    from call to call, and a [decimal.Decimal] by its sign, coefficient and
    exponent, with the arithmetic of the default context.

    The definitions come first; the properties follow, module by module,
    each claim under its number. *)

From Stdlib Require Import ZArith QArith Qpower Qminmax Lia Bool List.
From stdpp Require Import base option gmap strings.
Import ListNotations.

Local Open Scope string_scope.

(** ** Python values and exceptions *)

Set Warnings "-register-all".

(** The values an untrusted, JSON-like payload can hold. *)
Inductive pyval : Type :=
  | PNone
  | PBool (b : bool)
  | PInt (n : Z)
  | PStr (s : string)
  | PList (l : list pyval)
  | PDict (d : list (string * pyval)).

(** Truth value testing, as [bool(v)] does it: [None], [False], zero and the
    empty string, list and dict are false, everything else is true. *)
Definition truthy (v : pyval) : bool :=
  match v with
  | PNone => false
  | PBool b => b
  | PInt n => negb (n =? 0)%Z
  | PStr s => negb (String.eqb s "")
  | PList l => match l with [] => false | _ => true end
  | PDict d => match d with [] => false | _ => true end
  end.

(** The exceptions the examples can raise: the two builtin and decimal
    classes that occur, each with its message. *)
Inductive pyexn : Type :=
  | ValueError (msg : string)
  | InvalidOperation
  | Overflow.

(** The message an exception carries ([str(e)] for a [ValueError]). *)
Definition exn_message (e : pyexn) : option string :=
  match e with
  | ValueError msg => Some msg
  | _ => None
  end.

(** ** A small exception-and-state monad

    A Python function either returns a value or raises, and may change the
    world it runs in while doing so. *)
Module Eff.

Inductive outcome (A : Type) : Type :=
  | Return (a : A)
  | Raise (e : pyexn).
Arguments Return {A} a.
Arguments Raise {A} e.

Definition M (W A : Type) : Type := W -> outcome A * W.

Definition ret {W A} (a : A) : M W A := fun w => (Return a, w).
Definition raise {W A} (e : pyexn) : M W A := fun w => (Raise e, w).
Definition bind {W A B} (m : M W A) (k : A -> M W B) : M W B :=
  fun w =>
    match m w with
    | (Return a, w') => k a w'
    | (Raise e, w') => (Raise e, w')
    end.

Definition raises {A} (o : outcome A) : bool :=
  match o with Raise _ => true | Return _ => false end.

End Eff.
Import Eff.

Notation "'let*' x := m 'in' k" := (bind m (fun x => k))
  (at level 10, x name, m at level 100, k at level 200, only parsing).

(** ** examples/module_example.py *)

(** The payload is a [dict] received from an external API. *)
Abbreviation payload := (gmap string pyval).

(** [payload.get(key)]: the value under [key], or [None]. *)
Definition dict_get (p : payload) (key : string) : pyval :=
  match p !! key with
  | Some v => v
  | None => PNone
  end.

Section ProcessMessage.
(** The world the function runs in (session store, agents, ...): the
    function is written against any such world. *)
Context {W : Type}.

Definition process_message (p : payload) : M W (pyval * pyval * pyval) :=
  let* text := ret (dict_get p "text") in
  if negb (truthy text)
  then raise (ValueError "Missing 'text'")
  else ret (text, dict_get p "chat_session_id", dict_get p "chat_user_id").

End ProcessMessage.

(** The spec's words for the first claim: [text] is absent, or its value is
    the empty string. *)
Definition text_absent_or_empty (p : payload) : Prop :=
  p !! "text" = None \/ p !! "text" = Some (PStr "").

(** What the code tests: [text] is absent, or its value is false in a
    boolean context. *)
Definition text_absent_or_falsy (p : payload) : Prop :=
  p !! "text" = None \/ exists v, p !! "text" = Some v /\ truthy v = false.

(** The payloads used as concrete inputs below. *)
Definition payload_zero_text : payload := {[ "text" := PInt 0 ]}.
Definition payload_spec_keys : payload :=
  <[ "text" := PStr "hi" ]>
    (<[ "session_id" := PStr "s1" ]> {[ "user_id" := PStr "u1" ]}).
Definition payload_chat_keys : payload :=
  <[ "text" := PStr "hi" ]>
    (<[ "chat_session_id" := PStr "s1" ]> {[ "user_id" := PStr "u1" ]}).
Definition payload_no_text : payload := {[ "session_id" := PStr "s2" ]}.
Definition payload_other_keys : payload :=
  <[ "session_id" := PStr "other" ]> (delete "user_id" payload_chat_keys).

(** ** examples/class_example.py *)

Record IdentificationAgent : Type := mkAgent {
  identified : bool;
  account_uuid : option string
}.

(** [IdentificationAgent()] *)
Definition init : IdentificationAgent :=
  {| identified := false; account_uuid := None |}.

(** The test of [identify]: [token and token.startswith("valid-")]. *)
Definition token_accepted (token : string) : bool :=
  negb (String.eqb token "") && String.prefix "valid-" token.

(** [self.identify(token)]: the returned boolean and the agent afterwards. *)
Definition identify (token : string) (self : IdentificationAgent)
  : bool * IdentificationAgent :=
  let self' :=
    if token_accepted token
    then {| identified := true; account_uuid := Some "uuid-1234" |}
    else self in
  (identified self', self').

(** A finite sequence of [identify] calls, oldest first. *)
Fixpoint run (tokens : list string) (self : IdentificationAgent)
  : IdentificationAgent :=
  match tokens with
  | [] => self
  | t :: ts => run ts (snd (identify t self))
  end.

(** The session states: a fresh agent after any finite sequence of calls. *)
Definition reachable (s : IdentificationAgent) : Prop :=
  exists tokens, s = run tokens init.

(** The pairing invariant of the data model. *)
Definition paired (s : IdentificationAgent) : Prop :=
  account_uuid s <> None <-> identified s = true.

(** ** examples/function_example.py

    [calculate_discount] computes with [decimal.Decimal]. A [Decimal] is a
    sign, a coefficient and an exponent, or an infinity, or a NaN; every
    arithmetic result is rounded by the context, whose defaults are a
    precision of 28 digits, rounding half to even, exponents between
    [Emin = -999999] and [Emax = 999999], and traps on [InvalidOperation],
    [DivisionByZero] and [Overflow]. The operations below follow the
    library's Python implementation, method by method, under that default
    context: a trapped signal raises its exception, the other signals
    (Inexact, Rounded, Subnormal, Underflow, Clamped) only set flags, which
    nothing here reads. The diagnostic payload of a NaN is left out as
    well. *)

Local Open Scope Z_scope.

Inductive Decimal : Type :=
  | Fin (sign : bool) (coeff : N) (exp : Z)
  | Inf (sign : bool)
  | NaN (sign : bool) (signaling : bool).

Module Ctx.
Definition prec : Z := 28.
Definition Emax : Z := 999999.
Definition Emin : Z := -999999.
Definition Etiny : Z := Emin - prec + 1.
Definition Etop : Z := Emax - prec + 1.
End Ctx.

(** A result, or the exception raised. *)
Definition obind {A B} (m : outcome A) (k : A -> outcome B) : outcome B :=
  match m with
  | Return a => k a
  | Raise e => Raise e
  end.

Notation "'let?' x := m 'in' k" := (obind m (fun x => k))
  (at level 10, x name, m at level 100, k at level 200, only parsing).

(** [len(str(c))]: the number of decimal digits of [c], one for zero. *)
Fixpoint ndigits_fuel (fuel : nat) (c : Z) : Z :=
  match fuel with
  | O => 1
  | S fuel' => if c <? 10 then 1 else 1 + ndigits_fuel fuel' (c / 10)
  end.

Definition ndigits (c : Z) : Z := ndigits_fuel (S (Z.to_nat (Z.log2 c))) c.

(** [Decimal(n)] for an [int]: exact, whatever the context. *)
Definition of_int (n : Z) : Decimal := Fin (n <? 0) (Z.abs_N n) 0.

(** [bool(d)]: false for a finite zero only. *)
Definition nonzero (d : Decimal) : bool :=
  match d with
  | Fin _ c _ => negb (c =? 0)%N
  | _ => true
  end.

(** [Decimal._round_half_even], on numbers: when [c] is cut at [unit] (a
    power of ten), is the kept part to be incremented? Yes when the rest is
    more than half a unit, or exactly half with an odd kept part. *)
Definition _round_half_even (c unit : Z) : bool :=
  let kept := c / unit in
  let rest := c mod unit in
  (unit <? 2 * rest) || ((unit =? 2 * rest) && Z.odd kept).

(** [Decimal._fix] on a finite number: round to the context. *)
Definition _fix (sign : bool) (coeff : N) (exp : Z) : outcome Decimal :=
  let c := Z.of_N coeff in
  if c =? 0 then
    Return (Fin sign 0 (Z.min (Z.max exp Ctx.Etiny) Ctx.Emax))
  else
    let exp_min := ndigits c + exp - Ctx.prec in
    if exp_min >? Ctx.Etop then Raise Overflow
    else
      let self_is_subnormal := exp_min <? Ctx.Etiny in
      let exp_min := if self_is_subnormal then Ctx.Etiny else exp_min in
      if exp <? exp_min then
        let digits := ndigits c + exp - exp_min in
        (* fewer than no digit kept: round 10**(exp_min-1) instead *)
        let c := if digits <? 0 then 1 else c in
        let digits := if digits <? 0 then 0 else digits in
        (* cut after the first [digits] digits *)
        let unit := 10 ^ (ndigits c - digits) in
        let kept := c / unit in
        let changed := _round_half_even c unit in
        let coeff := if changed then kept + 1 else kept in
        (* an increment may add a digit: drop the last one, a zero *)
        let carry := changed && (ndigits coeff >? Ctx.prec) in
        let coeff := if carry then coeff / 10 else coeff in
        let exp_min := if carry then exp_min + 1 else exp_min in
        if exp_min >? Ctx.Etop then Raise Overflow
        else Return (Fin sign (Z.to_N coeff) exp_min)
      else Return (Fin sign coeff exp).

(** [Decimal._check_nans]: a signaling NaN traps, a quiet one is the
    result. *)
Definition _check_nans (a b : Decimal) : option (outcome Decimal) :=
  match a, b with
  | NaN _ true, _ => Some (Raise InvalidOperation)
  | _, NaN _ true => Some (Raise InvalidOperation)
  | NaN s false, _ => Some (Return (NaN s false))
  | _, NaN s false => Some (Return (NaN s false))
  | _, _ => None
  end.

(** [Decimal.__mul__] *)
Definition __mul__ (a b : Decimal) : outcome Decimal :=
  match _check_nans a b with
  | Some r => r
  | None =>
      match a, b with
      | Fin s1 c1 e1, Fin s2 c2 e2 => _fix (xorb s1 s2) (c1 * c2) (e1 + e2)
      | Inf s1, Fin s2 _ _ =>
          if nonzero b then Return (Inf (xorb s1 s2)) else Raise InvalidOperation
      | Fin s1 _ _, Inf s2 =>
          if nonzero a then Return (Inf (xorb s1 s2)) else Raise InvalidOperation
      | Inf s1, Inf s2 => Return (Inf (xorb s1 s2))
      | _, _ => Raise InvalidOperation (* a NaN: dealt with above *)
      end
  end.

(** [_normalize]: bring two non-zero operands [(c1, e1)] and [(c2, e2)] to
    a common exponent; an operand too small to matter after rounding is
    replaced by a one just below the digits that are kept. *)
Definition _normalize (c1 e1 c2 e2 : Z) : (Z * Z) * (Z * Z) :=
  let swap := e1 <? e2 in
  let '(tc, te, oc, oe) := if swap then (c2, e2, c1, e1) else (c1, e1, c2, e2) in
  let exp := te + Z.min (-1) (ndigits tc - Ctx.prec - 2) in
  let '(oc, oe) := if ndigits oc + oe - 1 <? exp then (1, exp) else (oc, oe) in
  let tc := tc * 10 ^ (te - oe) in
  let te := oe in
  if swap then ((oc, oe), (tc, te)) else ((tc, te), (oc, oe)).

(** [Decimal.__add__] (the context does not round to floor, so an exact
    zero sum of opposite signs is positive). *)
Definition __add__ (a b : Decimal) : outcome Decimal :=
  match _check_nans a b with
  | Some r => r
  | None =>
      match a, b with
      | Inf s1, Inf s2 =>
          if Bool.eqb s1 s2 then Return (Inf s1) else Raise InvalidOperation
      | Inf s1, _ => Return (Inf s1)
      | _, Inf s2 => Return (Inf s2)
      | Fin s1 c1 e1, Fin s2 c2 e2 =>
          let exp := Z.min e1 e2 in
          if (c1 =? 0)%N && (c2 =? 0)%N then _fix (s1 && s2) 0 exp
          else if (c1 =? 0)%N then
            let exp := Z.max exp (e2 - Ctx.prec - 1) in
            _fix s2 (c2 * Z.to_N (10 ^ (e2 - exp))) exp
          else if (c2 =? 0)%N then
            let exp := Z.max exp (e1 - Ctx.prec - 1) in
            _fix s1 (c1 * Z.to_N (10 ^ (e1 - exp))) exp
          else
            let '((i1, x1), (i2, _)) :=
              _normalize (Z.of_N c1) e1 (Z.of_N c2) e2 in
            if Bool.eqb s1 s2 then _fix s1 (Z.to_N (i1 + i2)) x1
            else if i1 =? i2 then _fix false 0 exp
            else if i1 <? i2 then _fix s2 (Z.to_N (i2 - i1)) x1
            else _fix s1 (Z.to_N (i1 - i2)) x1
      | _, _ => Raise InvalidOperation (* a NaN: dealt with above *)
      end
  end.

(** [Decimal.adjusted]: the exponent of the leading digit. *)
Definition adjusted (c : N) (e : Z) : Z := e + ndigits (Z.of_N c) - 1.

(** [Decimal._cmp] on two numbers that are not NaN: the sign of
    [a - b]. *)
Definition _cmp (a b : Decimal) : comparison :=
  let of_sign (s : bool) := if s then Lt else Gt in
  match a, b with
  | Inf s1, Inf s2 =>
      if Bool.eqb s1 s2 then Eq else of_sign s1
  | Inf s1, _ => of_sign s1
  | _, Inf s2 => CompOpp (of_sign s2)
  | Fin s1 c1 e1, Fin s2 c2 e2 =>
      if (c1 =? 0)%N then
        if (c2 =? 0)%N then Eq else CompOpp (of_sign s2)
      else if (c2 =? 0)%N then of_sign s1
      else if negb (Bool.eqb s1 s2) then of_sign s1
      else
        let a1 := adjusted c1 e1 in
        let a2 := adjusted c2 e2 in
        if a1 =? a2 then
          (* the coefficients, padded with zeros to a common exponent *)
          let p1 := Z.of_N c1 * 10 ^ Z.max 0 (e1 - e2) in
          let p2 := Z.of_N c2 * 10 ^ Z.max 0 (e2 - e1) in
          if p1 =? p2 then Eq
          else if p1 <? p2 then CompOpp (of_sign s1)
          else of_sign s1
        else if a1 >? a2 then of_sign s1
        else CompOpp (of_sign s1)
  | _, _ => Eq (* a NaN: the callers exclude it *)
  end.

(** [Decimal.__lt__]: an ordering comparison with a NaN, quiet or
    signaling, signals [InvalidOperation], which the context traps. *)
Definition __lt__ (a b : Decimal) : outcome bool :=
  match a, b with
  | NaN _ _, _ | _, NaN _ _ => Raise InvalidOperation
  | _, _ => Return (match _cmp a b with Lt => true | _ => false end)
  end.

(** The builtin [min(x, y)]: [y] when [y < x], else [x]. *)
Definition py_min (x y : Decimal) : outcome Decimal :=
  let? lt := __lt__ y x in
  Return (if lt then y else x).

(** [Decimal("0.05")] and [Decimal("0.3")] *)
Definition d_0_05 : Decimal := Fin false 5 (-2).
Definition d_0_3 : Decimal := Fin false 3 (-1).

Definition calculate_discount (user_tier : Z) (amount : Decimal)
  : outcome Decimal :=
  let? negative := __lt__ amount (of_int 0) in
  if negative then Raise (ValueError "Negative amount")
  else
    let? tiered := __mul__ (of_int user_tier) d_0_05 in
    let? base := __add__ d_0_05 tiered in
    let? discount := __mul__ amount base in
    let? cap := __mul__ amount d_0_3 in
    py_min discount cap.

(** The rational number a finite [Decimal] stands for. *)
Definition value (sign : bool) (coeff : N) (exp : Z) : Q :=
  ((if sign then -1 else 1) * inject_Z (Z.of_N coeff) * (10 # 1) ^ exp)%Q.

(** [amount < 0], as the number it is. *)
Definition is_negative (d : Decimal) : bool :=
  match d with
  | Fin s c _ => s && negb (c =? 0)%N
  | Inf s => s
  | NaN _ _ => false
  end.

(** The rate the source applies: [0.05 + 0.05 * user_tier]. *)
Definition rate (user_tier : Z) : Q :=
  ((5 # 100) + (5 # 100) * inject_Z user_tier)%Q.

(** The inputs on which no operation of [calculate_discount] rounds: every
    coefficient that comes up has at most 28 digits, and the exponents stay
    in range. *)
Definition exact_range (user_tier : Z) (coeff : N) (exp : Z) : Prop :=
  5 * Z.abs user_tier < 10 ^ 28
  /\ Z.abs (5 * user_tier + 5) < 10 ^ 28
  /\ Z.of_N coeff * Z.abs (5 * user_tier + 5) < 10 ^ 28
  /\ 3 * Z.of_N coeff < 10 ^ 28
  /\ Ctx.Etiny + 2 <= exp <= Ctx.Etop + 1.

(** *** Notions used to state what the arithmetic does *)

(** Only the two trapped signals come out of the arithmetic. *)
Definition signals {A} (m : outcome A) : Prop :=
  forall x, m = Raise x -> x = InvalidOperation \/ x = Overflow.

(** [rhe x g]: [x / g] rounded to the nearest integer, halves to even. *)
Definition rhe (x g : Z) : Z :=
  x / g + (if _round_half_even x g then 1 else 0).

(** The exponent [_fix] rounds to: that of the 28th digit, or [Etiny] when
    that is lower still. *)
Definition quantum (c e : Z) : Z := Z.max (ndigits c + e - Ctx.prec) Ctx.Etiny.

(** The number [coeff * 10 ^ exp] in units of [10 ^ m], for an [m] below
    the exponent. *)
Definition scaled (m : Z) (coeff : N) (exp : Z) : Z :=
  Z.of_N coeff * 10 ^ (exp - m).

(** The inputs used as concrete cases below. *)
Definition two_thirds : Decimal := Fin false 6666666666666666666666666666 (-28).
Definition hundred : Decimal := Fin false 10000 (-2).

(** * Properties *)

(** ** process_message *)

Section ProcessMessageFacts.
Context {W : Type}.
Implicit Types (p : payload) (w : W).

(** The function never touches the world it runs in. *)
Lemma process_message_world p w : snd (process_message p w) = w.
Proof.
  unfold process_message, bind, ret, raise; simpl.
  destruct (truthy (dict_get p "text")); reflexivity.
Qed.

(** It raises exactly when the value read under [text] is false. *)
Lemma process_message_raises p w :
  raises (fst (process_message p w)) = negb (truthy (dict_get p "text")).
Proof.
  unfold process_message, bind, ret, raise; simpl.
  destruct (truthy (dict_get p "text")); reflexivity.
Qed.

(** Whatever it raises is the one [ValueError] of the source. *)
Lemma process_message_error p w e :
  fst (process_message p w) = Raise e -> e = ValueError "Missing 'text'".
Proof.
  unfold process_message, bind, ret, raise; simpl.
  destruct (truthy (dict_get p "text")); simpl; congruence.
Qed.

Lemma dict_get_falsy p :
  truthy (dict_get p "text") = false <-> text_absent_or_falsy p.
Proof.
  unfold dict_get, text_absent_or_falsy.
  destruct (p !! "text") as [v|] eqn:E; split.
  - intros Hf. right. exists v. split; [reflexivity | exact Hf].
  - intros [Habs | (v' & Hv & Hf)]; [discriminate | congruence].
  - intros _. left. reflexivity.
  - intros _. reflexivity.
Qed.

End ProcessMessageFacts.

(** C1, as stated, fails: the payload [{"text": 0}] has the key [text] and
    its value is not an empty string, and yet [process_message] raises. *)
Lemma C1_zero_text_raises :
  raises (fst (process_message payload_zero_text tt)) = true
  /\ payload_zero_text !! "text" = Some (PInt 0)
  /\ (text_absent_or_empty payload_zero_text -> False).
Proof.
  split; [vm_compute; reflexivity|].
  assert (E : payload_zero_text !! "text" = Some (PInt 0)) by (vm_compute; reflexivity).
  split; [exact E|].
  intros [H | H]; rewrite E in H; discriminate.
Qed.

(** C1, amended: for every payload and every world, [process_message]
    raises (a [ValueError]) if and only if the key [text] is absent or its
    value is false in a boolean context; for a [text] that is a string this
    is exactly the empty string; an absent or empty [text] always raises;
    and in every case the world (session states, agents) is left as it
    was. *)
Theorem C1_process_message_raises_iff :
  forall (W : Type) (p : payload) (w : W),
    (raises (fst (process_message p w)) = true <-> text_absent_or_falsy p)
    /\ (forall e, fst (process_message p w) = Raise e ->
                  e = ValueError "Missing 'text'")
    /\ (forall s, p !! "text" = Some (PStr s) ->
          (raises (fst (process_message p w)) = true <-> s = ""))
    /\ (text_absent_or_empty p -> raises (fst (process_message p w)) = true)
    /\ snd (process_message p w) = w.
Proof.
  intros W p w.
  rewrite process_message_raises, negb_true_iff.
  split; [apply dict_get_falsy|].
  split; [apply process_message_error|].
  split; [|split; [|apply process_message_world]].
  - intros s Hs. unfold dict_get. rewrite Hs. cbn [truthy].
    rewrite negb_involutive. apply String.eqb_eq.
  - intros [H | H]; unfold dict_get; rewrite H; reflexivity.
Qed.

(** C2, as stated, fails: on [{"text": "hi", "session_id": "s1",
    "user_id": "u1"}] the second and third components are [None], not the
    values under [session_id] and [user_id]. *)
Lemma C2_spec_keys_not_read :
  fst (process_message payload_spec_keys tt) = Return (PStr "hi", PNone, PNone)
  /\ dict_get payload_spec_keys "session_id" = PStr "s1"
  /\ dict_get payload_spec_keys "user_id" = PStr "u1".
Proof. vm_compute. repeat split. Qed.

(** C2, amended: for every payload whose [text] is true in a boolean
    context, [process_message] returns the triple of the value under [text],
    the value under [chat_session_id] and the value under [chat_user_id],
    each [None] when its key is absent and unchanged otherwise; keys other
    than these three are not read. *)
Theorem C2_process_message_returns :
  forall (W : Type) (p : payload) (w : W),
    truthy (dict_get p "text") = true ->
    fst (process_message p w)
      = Return (dict_get p "text",
                dict_get p "chat_session_id",
                dict_get p "chat_user_id")
    /\ (forall v, p !! "chat_session_id" = Some v ->
                  dict_get p "chat_session_id" = v)
    /\ (p !! "chat_session_id" = None -> dict_get p "chat_session_id" = PNone)
    /\ (forall v, p !! "chat_user_id" = Some v -> dict_get p "chat_user_id" = v)
    /\ (p !! "chat_user_id" = None -> dict_get p "chat_user_id" = PNone).
Proof.
  intros W p w Ht. unfold process_message, bind, ret. simpl.
  rewrite Ht. simpl. split; [reflexivity|].
  unfold dict_get.
  repeat split; intros; repeat match goal with H : _ !! _ = _ |- _ => rewrite H end;
    reflexivity.
Qed.

Lemma C2_process_message_returns_witness :
  fst (process_message payload_chat_keys tt)
    = Return (PStr "hi", PStr "s1", PNone).
Proof.
  exact (proj1 (C2_process_message_returns unit payload_chat_keys tt eq_refl)).
Defined.

(** C8, as stated, fails: for the payload [{"session_id": "s2"}], which has
    no [text], the error raised carries the message "Missing 'text'", not
    "missing required field: text". *)
Lemma C8_message_differs :
  text_absent_or_empty payload_no_text
  /\ fst (process_message payload_no_text tt) = Raise (ValueError "Missing 'text'")
  /\ (exn_message (ValueError "Missing 'text'")
        = Some "missing required field: text" -> False).
Proof.
  split; [left; vm_compute; reflexivity|].
  split; [vm_compute; reflexivity|].
  simpl. discriminate.
Qed.

(** C8, amended: for every payload whose [text] is absent or false in a
    boolean context (the empty string included), the error [process_message]
    raises is a [ValueError] carrying the message "Missing 'text'". *)
Theorem C8_process_message_message :
  forall (W : Type) (p : payload) (w : W),
    text_absent_or_falsy p ->
    fst (process_message p w) = Raise (ValueError "Missing 'text'")
    /\ exn_message (ValueError "Missing 'text'") = Some "Missing 'text'".
Proof.
  intros W p w H. apply dict_get_falsy in H.
  unfold process_message, bind, ret, raise. simpl. rewrite H. simpl.
  split; reflexivity.
Qed.

Lemma C8_process_message_message_witness :
  fst (process_message payload_no_text tt) = Raise (ValueError "Missing 'text'").
Proof.
  exact (proj1 (C8_process_message_message unit payload_no_text tt
                  (or_introl eq_refl))).
Defined.

(** ** IdentificationAgent *)

(** The tokens [identify] accepts are those that start with "valid-". *)
Lemma token_accepted_spec (token : string) :
  token_accepted token = true <-> exists rest, token = "valid-" ++ rest.
Proof.
  unfold token_accepted. split.
  - intros H. apply andb_true_iff in H as [_ H].
    apply String.prefix_correct in H. simpl String.length in H.
    do 6 (destruct token as [|? token]; [discriminate H|]).
    simpl in H. injection H as E1 E2 E3 E4 E5 E6 _. subst.
    exists token. reflexivity.
  - intros [rest ->]. destruct rest; reflexivity.
Qed.

Lemma identify_accepted token s :
  token_accepted token = true ->
  identify token s = (true, mkAgent true (Some "uuid-1234")).
Proof. intros H. unfold identify. rewrite H. reflexivity. Qed.

Lemma identify_rejected token s :
  token_accepted token = false ->
  identify token s = (identified s, s).
Proof. intros H. unfold identify. rewrite H. reflexivity. Qed.

(** One call keeps the pairing invariant. *)
Lemma identify_paired token s : paired s -> paired (snd (identify token s)).
Proof.
  intros Hs. destruct (token_accepted token) eqn:E.
  - rewrite (identify_accepted _ _ E). unfold paired. simpl. split; congruence.
  - rewrite (identify_rejected _ _ E). exact Hs.
Qed.

(** One call never clears the flag. *)
Lemma identify_monotone token s :
  identified s = true -> identified (snd (identify token s)) = true.
Proof.
  intros Hs. destruct (token_accepted token) eqn:E.
  - rewrite (identify_accepted _ _ E). reflexivity.
  - rewrite (identify_rejected _ _ E). exact Hs.
Qed.

Lemma run_app ts us s : run (ts ++ us) s = run us (run ts s).
Proof. revert s. induction ts as [|t ts IH]; intros s; simpl; auto. Qed.

Lemma run_paired tokens s : paired s -> paired (run tokens s).
Proof.
  revert s. induction tokens as [|t ts IH]; intros s Hs; simpl; [exact Hs|].
  apply IH, identify_paired, Hs.
Qed.

Lemma run_monotone tokens s :
  identified s = true -> identified (run tokens s) = true.
Proof.
  revert s. induction tokens as [|t ts IH]; intros s Hs; simpl; [exact Hs|].
  apply IH, identify_monotone, Hs.
Qed.

(** The only states a session goes through. *)
Lemma run_init_cases tokens :
  run tokens init = init \/ run tokens init = mkAgent true (Some "uuid-1234").
Proof.
  induction tokens as [|t ts IH] using rev_ind; [left; reflexivity|].
  rewrite run_app. cbn [run].
  destruct (token_accepted t) eqn:E.
  - right. rewrite (identify_accepted _ _ E). reflexivity.
  - rewrite (identify_rejected _ _ E). exact IH.
Qed.

Lemma reachable_identified s :
  reachable s -> identified s = true -> s = mkAgent true (Some "uuid-1234").
Proof.
  intros [tokens ->] H.
  destruct (run_init_cases tokens) as [E | E]; rewrite E in *; [discriminate|reflexivity].
Qed.

(** C3: after a fresh agent has gone through any finite sequence of
    [identify] calls, with any tokens, [account_uuid] is not [None] if and
    only if [identified] is true; as the sequence is arbitrary, this holds
    after every operation. *)
Theorem C3_pairing_invariant :
  forall tokens : list string,
    let s := run tokens init in
    (account_uuid s <> None <-> identified s = true)
    /\ (forall t, paired (snd (identify t s))).
Proof.
  intros tokens s.
  assert (Hs : paired s).
  { apply run_paired. unfold paired, init; simpl. split; congruence. }
  split; [exact Hs|]. intros t. apply identify_paired, Hs.
Qed.

(** C4: once [identified] is true it stays true through every further
    finite sequence of [identify] calls, whatever the tokens. *)
Theorem C4_identified_is_monotone :
  forall (s : IdentificationAgent) (tokens : list string),
    identified s = true ->
    identified (run tokens s) = true
    /\ (forall t, identified (snd (identify t s)) = true).
Proof.
  intros s tokens Hs. split; [apply run_monotone, Hs|].
  intros t. apply identify_monotone, Hs.
Qed.

Lemma C4_identified_is_monotone_witness :
  identified (run ["bad-token"; ""; "valid-xyz"; "nope"] (run ["valid-abc"] init))
    = true.
Proof.
  exact (proj1 (C4_identified_is_monotone (run ["valid-abc"] init)
                  ["bad-token"; ""; "valid-xyz"; "nope"] eq_refl)).
Defined.

(** C5: on a fresh agent [identify("valid-abc")] returns true and leaves
    [account_uuid] at "uuid-1234"; [identify("bad-token")] returns false and
    leaves the agent unidentified with [account_uuid] at [None], and a later
    [identify("valid-xyz")] succeeds; on every unidentified agent [identify]
    returns true exactly for the accepted tokens (those that start with
    "valid-"), and whenever it returns true [account_uuid] holds a non-empty
    string. *)
Theorem C5_identify_outcomes :
  identify "valid-abc" init = (true, mkAgent true (Some "uuid-1234"))
  /\ "uuid-1234" <> ""
  /\ identify "bad-token" init = (false, mkAgent false None)
  /\ identify "valid-xyz" (snd (identify "bad-token" init))
       = (true, mkAgent true (Some "uuid-1234"))
  /\ (forall (s : IdentificationAgent) (t : string),
        identified s = false ->
        fst (identify t s) = token_accepted t
        /\ (fst (identify t s) = true <-> exists rest, t = "valid-" ++ rest)
        /\ (fst (identify t s) = true ->
            exists u, account_uuid (snd (identify t s)) = Some u /\ u <> "")
        /\ (fst (identify t s) = false -> snd (identify t s) = s)).
Proof.
  split; [reflexivity|]. split; [discriminate|].
  split; [reflexivity|]. split; [reflexivity|].
  intros s t Hs.
  assert (E : fst (identify t s) = token_accepted t).
  { destruct (token_accepted t) eqn:E.
    - rewrite (identify_accepted _ _ E). reflexivity.
    - rewrite (identify_rejected _ _ E). exact Hs. }
  split; [exact E|]. rewrite E.
  split; [apply token_accepted_spec|].
  split; intros H.
  - rewrite (identify_accepted _ _ H). simpl. eexists. split; [reflexivity|discriminate].
  - rewrite (identify_rejected _ _ H). reflexivity.
Qed.

(** C6: a freshly constructed agent has [identified] false and
    [account_uuid] at [None]. *)
Theorem C6_fresh_state :
  identified init = false /\ account_uuid init = None
  /\ run [] init = init.
Proof. repeat split. Qed.

(** C7: on an identified session state every further [identify] call, with
    any token, returns true and leaves the state as it was ([identified]
    true, [account_uuid] unchanged); and for every state and token, calling
    [identify] twice in a row with the token gives the same state and the same
    answer as calling it once. *)
Theorem C7_identify_idempotent :
  forall (s : IdentificationAgent) (t : string),
    reachable s ->
    identified s = true ->
    (fst (identify t s) = true
     /\ identified (snd (identify t s)) = true
     /\ account_uuid (snd (identify t s)) = account_uuid s
     /\ snd (identify t s) = s)
    /\ (forall (s' : IdentificationAgent) (t' : string),
          identify t' (snd (identify t' s')) = identify t' s').
Proof.
  intros s t Hr Hs. split.
  - rewrite (reachable_identified s Hr Hs).
    unfold identify. destruct (token_accepted t); simpl; repeat split.
  - intros s' t'. unfold identify.
    destruct (token_accepted t') eqn:E; simpl; rewrite ?E; reflexivity.
Qed.

Lemma C7_identify_idempotent_witness :
  snd (identify "valid-other" (run ["bad-token"; "valid-abc"] init))
    = run ["bad-token"; "valid-abc"] init.
Proof.
  exact (proj2 (proj2 (proj2 (proj1
    (C7_identify_idempotent (run ["bad-token"; "valid-abc"] init) "valid-other"
       (ex_intro _ ["bad-token"; "valid-abc"] eq_refl) eq_refl))))).
Defined.

(** C9: for every state and token, the value [identify] returns is the
    [identified] flag after the call; so an invalid token given to an agent
    that is already identified returns true although the token was not
    accepted. *)
Theorem C9_identify_returns_flag :
  (forall (s : IdentificationAgent) (t : string),
     fst (identify t s) = identified (snd (identify t s)))
  /\ (let s := run ["valid-abc"] init in
      token_accepted "bad-token" = false
      /\ identified s = true
      /\ fst (identify "bad-token" s) = true).
Proof.
  split; [|repeat split].
  intros s t. reflexivity.
Qed.

(** ** calculate_discount *)

Local Open Scope Z_scope.

(** *** The number of digits *)

Lemma ndigits_fuel_spec (fuel : nat) :
  forall c, 0 < c < 2 ^ Z.of_nat fuel ->
    1 <= ndigits_fuel fuel c
    /\ 10 ^ (ndigits_fuel fuel c - 1) <= c < 10 ^ ndigits_fuel fuel c.
Proof.
  induction fuel as [|fuel IH]; intros c Hc.
  - simpl in Hc. lia.
  - cbn [ndigits_fuel]. destruct (Z.ltb_spec c 10) as [Hlt | Hge].
    + simpl. lia.
    + assert (Hq : 0 < c / 10 < 2 ^ Z.of_nat fuel).
      { split.
        - apply Z.div_str_pos. lia.
        - apply Z.div_lt_upper_bound; [lia|].
          rewrite Nat2Z.inj_succ, Z.pow_succ_r in Hc by lia. lia. }
      destruct (IH _ Hq) as (H1 & H2 & H3).
      set (n := ndigits_fuel fuel (c / 10)) in *.
      split; [lia|].
      replace (1 + n - 1) with (Z.succ (n - 1)) by lia.
      replace (1 + n) with (Z.succ n) by lia.
      rewrite !Z.pow_succ_r by lia.
      pose proof (Z.mul_div_le c 10 ltac:(lia)).
      pose proof (Z.mul_succ_div_gt c 10 ltac:(lia)).
      lia.
Qed.

Lemma ndigits_spec (c : Z) :
  0 < c -> 1 <= ndigits c /\ 10 ^ (ndigits c - 1) <= c < 10 ^ ndigits c.
Proof.
  intros Hc. unfold ndigits. apply ndigits_fuel_spec.
  split; [exact Hc|].
  rewrite Nat2Z.inj_succ, Z2Nat.id by apply Z.log2_nonneg.
  apply Z.log2_spec, Hc.
Qed.

(** The number of digits is fixed by the decade the number lies in. *)
Lemma ndigits_unique (c k : Z) :
  10 ^ (k - 1) <= c < 10 ^ k -> 0 < c -> ndigits c = k.
Proof.
  intros [Hlo Hhi] Hc.
  destruct (ndigits_spec c Hc) as (H1 & H2 & H3).
  assert (Hk : 0 < k).
  { destruct (Z.ltb_spec 0 k) as [Hpos | Hneg]; [assumption|].
    destruct (Z.eq_dec k 0) as [-> | Hk0]; [simpl in Hhi; lia|].
    rewrite Z.pow_neg_r in Hhi by lia. lia. }
  destruct (Z.lt_trichotomy (ndigits c) k) as [Hlt | [Heq | Hgt]]; [|exact Heq|].
  - assert (10 ^ ndigits c <= 10 ^ (k - 1)) by (apply Z.pow_le_mono_r; lia). lia.
  - assert (10 ^ k <= 10 ^ (ndigits c - 1)) by (apply Z.pow_le_mono_r; lia). lia.
Qed.

Lemma ndigits_le (c k : Z) : 0 < c < 10 ^ k -> ndigits c <= k.
Proof.
  intros [Hc Hk].
  destruct (ndigits_spec c Hc) as (H1 & H2 & H3).
  destruct (Z.leb_spec (ndigits c) k) as [Hle | Hgt]; [exact Hle|].
  assert (10 ^ k <= 10 ^ (ndigits c - 1)).
  { apply Z.pow_le_mono_r; [lia|]. lia. }
  lia.
Qed.

(** *** Rounding that does not round *)

Ltac ctx := unfold Ctx.Etiny, Ctx.Etop, Ctx.Emax, Ctx.Emin, Ctx.prec in *.

(** A coefficient of at most 28 digits with an exponent in range is left as
    it is. *)
Lemma fix_exact (s : bool) (c : N) (e : Z) :
  0 < Z.of_N c < 10 ^ 28 ->
  Ctx.Etiny <= e <= Ctx.Etop ->
  _fix s c e = Return (Fin s c e).
Proof.
  intros Hc He. unfold _fix.
  destruct (Z.eqb_spec (Z.of_N c) 0) as [H0 | _]; [lia|].
  pose proof (ndigits_le (Z.of_N c) 28 Hc) as Hnd.
  destruct (ndigits_spec (Z.of_N c) (proj1 Hc)) as (Hnd1 & _).
  set (nd := ndigits (Z.of_N c)) in *. ctx.
  destruct (Z.gtb_spec (nd + e - 28) (999999 - 28 + 1)) as [Hov | _]; [lia|].
  destruct (nd + e - 28 <? -999999 - 28 + 1);
    (destruct (Z.ltb_spec e (-999999 - 28 + 1)) as [Hlt | _];
     destruct (Z.ltb_spec e (nd + e - 28)) as [Hlt' | _]; try lia; reflexivity).
Qed.

(** So is a zero, for which the exponent may even reach [Emax]. *)
Lemma fix_zero (s : bool) (e : Z) :
  Ctx.Etiny <= e <= Ctx.Emax ->
  _fix s 0 e = Return (Fin s 0 e).
Proof.
  intros He. unfold _fix. simpl (Z.of_N 0 =? 0). cbv iota.
  f_equal. f_equal. ctx. lia.
Qed.

(** Both at once. *)
Lemma fix_id (s : bool) (c : N) (e : Z) :
  Z.of_N c < 10 ^ 28 ->
  Ctx.Etiny <= e <= Ctx.Etop ->
  _fix s c e = Return (Fin s c e).
Proof.
  intros Hc He. destruct (N.eq_dec c 0%N) as [-> | Hnz].
  - apply fix_zero. ctx. lia.
  - apply fix_exact; [lia | exact He].
Qed.

(** *** Comparison *)

Lemma pow10_pos (k : Z) : 0 <= k -> 0 < 10 ^ k.
Proof. intros Hk. apply Z.pow_pos_nonneg; lia. Qed.

(** Two positive numbers compare as their coefficients do once padded to a
    common exponent. *)
Lemma cmp_pos (c1 c2 : N) (e1 e2 : Z) :
  0 < Z.of_N c1 -> 0 < Z.of_N c2 ->
  _cmp (Fin false c1 e1) (Fin false c2 e2)
    = (Z.of_N c1 * 10 ^ Z.max 0 (e1 - e2) ?= Z.of_N c2 * 10 ^ Z.max 0 (e2 - e1)).
Proof.
  intros H1 H2. unfold _cmp, adjusted.
  destruct (N.eqb_spec c1 0) as [-> | _]; [simpl in H1; lia|].
  destruct (N.eqb_spec c2 0) as [-> | _]; [simpl in H2; lia|].
  simpl (negb (Bool.eqb false false)). cbv iota.
  destruct (ndigits_spec _ H1) as (Hn1 & Hlo1 & Hhi1).
  destruct (ndigits_spec _ H2) as (Hn2 & Hlo2 & Hhi2).
  set (n1 := ndigits (Z.of_N c1)) in *. set (n2 := ndigits (Z.of_N c2)) in *.
  set (p1 := Z.of_N c1 * 10 ^ Z.max 0 (e1 - e2)).
  set (p2 := Z.of_N c2 * 10 ^ Z.max 0 (e2 - e1)).
  destruct (Z.eqb_spec (e1 + n1 - 1) (e2 + n2 - 1)) as [Ha | Ha].
  - destruct (Z.eqb_spec p1 p2) as [Hp | Hp].
    + symmetry. apply Z.compare_eq_iff, Hp.
    + destruct (Z.ltb_spec p1 p2) as [Hlt | Hge]; simpl; symmetry.
      * apply Z.compare_lt_iff, Hlt.
      * apply Z.compare_gt_iff. lia.
  - destruct (Z.gtb_spec (e1 + n1 - 1) (e2 + n2 - 1)) as [Hgt | Hle]; simpl; symmetry.
    + apply Z.compare_gt_iff. subst p1 p2.
      destruct (Z.le_ge_cases 0 (e1 - e2)) as [Hd | Hd].
      * rewrite (Z.max_r 0 (e1 - e2)), (Z.max_l 0 (e2 - e1)) by lia.
        rewrite Z.pow_0_r, Z.mul_1_r.
        assert (10 ^ n2 <= 10 ^ (n1 - 1 + (e1 - e2))) by (apply Z.pow_le_mono_r; lia).
        rewrite Z.pow_add_r in H by lia.
        pose proof (pow10_pos (e1 - e2) Hd). nia.
      * rewrite (Z.max_l 0 (e1 - e2)), (Z.max_r 0 (e2 - e1)) by lia.
        rewrite Z.pow_0_r, Z.mul_1_r.
        assert (10 ^ (n2 + (e2 - e1)) <= 10 ^ (n1 - 1)) by (apply Z.pow_le_mono_r; lia).
        rewrite Z.pow_add_r in H by lia.
        pose proof (pow10_pos (e2 - e1) ltac:(lia)). nia.
    + apply Z.compare_lt_iff. subst p1 p2.
      destruct (Z.le_ge_cases 0 (e1 - e2)) as [Hd | Hd].
      * rewrite (Z.max_r 0 (e1 - e2)), (Z.max_l 0 (e2 - e1)) by lia.
        rewrite Z.pow_0_r, Z.mul_1_r.
        assert (10 ^ (n1 + (e1 - e2)) <= 10 ^ (n2 - 1)) by (apply Z.pow_le_mono_r; lia).
        rewrite Z.pow_add_r in H by lia.
        pose proof (pow10_pos (e1 - e2) Hd). nia.
      * rewrite (Z.max_l 0 (e1 - e2)), (Z.max_r 0 (e2 - e1)) by lia.
        rewrite Z.pow_0_r, Z.mul_1_r.
        assert (10 ^ n1 <= 10 ^ (n2 - 1 + (e2 - e1))) by (apply Z.pow_le_mono_r; lia).
        rewrite Z.pow_add_r in H by lia.
        pose proof (pow10_pos (e2 - e1) ltac:(lia)). nia.
Qed.

(** *** The exceptions of the decimal operations *)

Lemma signals_return {A} (a : A) : signals (Return a).
Proof. intros x H. discriminate. Qed.

Lemma signals_raise_invalid {A} : signals (@Raise A InvalidOperation).
Proof. intros x H. injection H as <-. left. reflexivity. Qed.

Lemma signals_raise_overflow {A} : signals (@Raise A Overflow).
Proof. intros x H. injection H as <-. right. reflexivity. Qed.

Lemma signals_obind {A B} (m : outcome A) (k : A -> outcome B) :
  signals m -> (forall a, signals (k a)) -> signals (obind m k).
Proof.
  intros Hm Hk x. destruct m as [a | e]; simpl.
  - apply Hk.
  - intros H. injection H as <-. apply (Hm e eq_refl).
Qed.

Create HintDb signals.

#[local] Hint Resolve signals_return signals_raise_invalid
  signals_raise_overflow : signals.

Ltac split_ifs :=
  repeat match goal with
         | |- context [if ?b then _ else _] => destruct b
         end.

Lemma signals_fix s c e : signals (_fix s c e).
Proof. unfold _fix. cbv zeta. split_ifs; auto with signals. Qed.

#[local] Hint Resolve signals_fix : signals.

Lemma signals_mul a b : signals (__mul__ a b).
Proof.
  destruct a as [s1 c1 e1 | s1 | s1 [|]], b as [s2 c2 e2 | s2 | s2 [|]];
    unfold __mul__; simpl; split_ifs; auto with signals.
Qed.

Lemma signals_add a b : signals (__add__ a b).
Proof.
  destruct a as [s1 c1 e1 | s1 | s1 [|]], b as [s2 c2 e2 | s2 | s2 [|]];
    try (unfold __add__; simpl; split_ifs; auto with signals; fail).
  unfold __add__. cbn [_check_nans]. cbv zeta.
  destruct (_normalize _ _ _ _) as [[i1 x1] [i2 x2]].
  split_ifs; auto with signals.
Qed.

Lemma signals_lt a b : signals (__lt__ a b).
Proof.
  destruct a as [s1 c1 e1 | s1 | s1 g1], b as [s2 c2 e2 | s2 | s2 g2];
    unfold __lt__; auto with signals.
Qed.

Lemma signals_min a b : signals (py_min a b).
Proof.
  unfold py_min. apply signals_obind; [apply signals_lt|].
  intros lt. auto with signals.
Qed.

(** *** The test [amount < 0] *)

Lemma lt_zero (a : Decimal) :
  __lt__ a (of_int 0)
    = match a with
      | NaN _ _ => Raise InvalidOperation
      | _ => Return (is_negative a)
      end.
Proof.
  destruct a as [s c e | s | s g]; [| destruct s; reflexivity | reflexivity].
  unfold __lt__, _cmp, of_int, is_negative. simpl (Z.abs_N 0). simpl (0 <? 0).
  simpl ((0 =? 0)%N).
  destruct (c =? 0)%N; destruct s; reflexivity.
Qed.

(** [calculate_discount] raises its [ValueError] exactly for the negative
    amounts, and a NaN makes the comparison itself raise. *)
Lemma calculate_discount_negative (user_tier : Z) (amount : Decimal) :
  calculate_discount user_tier amount = Raise (ValueError "Negative amount")
  <-> is_negative amount = true.
Proof.
  unfold calculate_discount. rewrite lt_zero.
  assert (Hrest : forall a, signals (
    let? tiered := __mul__ (of_int user_tier) d_0_05 in
    let? base := __add__ d_0_05 tiered in
    let? discount := __mul__ a base in
    let? cap := __mul__ a d_0_3 in
    py_min discount cap)).
  { intros a.
    apply signals_obind; [apply signals_mul|]. intros tiered.
    apply signals_obind; [apply signals_add|]. intros base.
    apply signals_obind; [apply signals_mul|]. intros discount.
    apply signals_obind; [apply signals_mul|]. intros cap.
    apply signals_min. }
  destruct amount as [s c e | s | s g]; cbn [obind].
  - destruct (is_negative (Fin s c e)); split; intros H;
      try reflexivity; try discriminate.
    apply Hrest in H. destruct H; discriminate.
  - destruct (is_negative (Inf s)); split; intros H;
      try reflexivity; try discriminate.
    apply Hrest in H. destruct H; discriminate.
  - simpl. split; discriminate.
Qed.

Lemma calculate_discount_nan (user_tier : Z) (s g : bool) :
  calculate_discount user_tier (NaN s g) = Raise InvalidOperation.
Proof. reflexivity. Qed.

(** *** The rate [0.05 + 0.05 * user_tier] *)

Lemma normalize_same_exp (c : Z) :
  0 < c -> _normalize 5 (-2) c (-2) = ((5, -2), (c, -2)).
Proof.
  intros Hc. unfold _normalize.
  destruct (ndigits_spec c Hc) as (Hn & _).
  change (-2 <? -2) with false. cbv iota beta zeta.
  replace (ndigits 5) with 1 by reflexivity. ctx.
  change (-2 + Z.min (-1) (1 - 28 - 2)) with (-31).
  destruct (Z.ltb_spec (ndigits c + -2 - 1) (-31)) as [Hlt | _]; [lia|].
  reflexivity.
Qed.

(** While five times the tier fits in 28 digits, the rate is exact: it is
    [(5 * user_tier + 5) / 100]. *)
Lemma base_exact (user_tier : Z) :
  5 * Z.abs user_tier < 10 ^ 28 ->
  Z.abs (5 * user_tier + 5) < 10 ^ 28 ->
  exists tiered,
    __mul__ (of_int user_tier) d_0_05 = Return tiered
    /\ __add__ d_0_05 tiered
       = Return (Fin (5 * user_tier + 5 <? 0) (Z.abs_N (5 * user_tier + 5)) (-2)).
Proof.
  intros Ht Hb.
  destruct (Z.eq_dec user_tier 0) as [-> | Hnz].
  { exists (Fin false 0 (-2)). split; vm_compute; reflexivity. }
  exists (Fin (user_tier <? 0) (Z.abs_N user_tier * 5) (-2)).
  split.
  { unfold __mul__, of_int, d_0_05. cbn [_check_nans].
    rewrite xorb_false_r. change (0 + -2) with (-2).
    apply fix_exact; [lia | ctx; lia]. }
  unfold __add__, d_0_05. cbn [_check_nans].
  change ((5 =? 0)%N) with false. cbn [andb].
  destruct (N.eqb_spec (Z.abs_N user_tier * 5) 0) as [H0 | _]; [lia|].
  change (Z.of_N 5) with 5.
  rewrite normalize_same_exp by lia.
  destruct (Z.ltb_spec user_tier 0) as [Hneg | Hpos]; cbn [Bool.eqb].
  - destruct (Z.eqb_spec 5 (Z.of_N (Z.abs_N user_tier * 5))) as [H1 | Hne].
    + assert (user_tier = -1) by lia. subst user_tier. vm_compute. reflexivity.
    + destruct (Z.ltb_spec 5 (Z.of_N (Z.abs_N user_tier * 5))) as [Hlt | Hge]; [|lia].
      rewrite fix_exact by (ctx; lia).
      destruct (Z.ltb_spec (5 * user_tier + 5) 0) as [_ | Hc]; [|lia].
      do 2 f_equal. lia.
  - rewrite fix_exact by (ctx; lia).
    destruct (Z.ltb_spec (5 * user_tier + 5) 0) as [Hc | _]; [lia|].
    do 2 f_equal. lia.
Qed.

(** *** Values *)

Lemma ten_neq_0 : ~ (10 # 1 == 0)%Q.
Proof. discriminate. Qed.

(** The value of a product of coefficients at the sum of the exponents is
    the product of the values: a multiplication that does not round is
    exact. *)
Lemma value_mul (s1 s2 : bool) (c1 c2 : N) (e1 e2 : Z) :
  (value (xorb s1 s2) (c1 * c2) (e1 + e2)
   == value s1 c1 e1 * value s2 c2 e2)%Q.
Proof.
  unfold value. rewrite N2Z.inj_mul, inject_Z_mult.
  rewrite Qpower_plus by apply ten_neq_0.
  destruct s1, s2; simpl xorb; cbv iota; ring.
Qed.

Lemma value_rate (user_tier : Z) :
  (value (5 * user_tier + 5 <? 0) (Z.abs_N (5 * user_tier + 5)) (-2)
   == (5 # 100) + (5 # 100) * inject_Z user_tier)%Q.
Proof.
  unfold value. set (k := 5 * user_tier + 5).
  assert (Hk : ((if k <? 0 then -1 else 1) * inject_Z (Z.of_N (Z.abs_N k))
                == inject_Z k)%Q).
  { rewrite N2Z.inj_abs_N.
    destruct (Z.ltb_spec k 0) as [Hneg | Hpos].
    - rewrite Z.abs_neq by lia. rewrite inject_Z_opp. ring.
    - rewrite Z.abs_eq by lia. ring. }
  rewrite Hk. subst k.
  rewrite inject_Z_plus, inject_Z_mult.
  change ((10 # 1) ^ (-2))%Q with (/ ((10 # 1) * (10 # 1)))%Q.
  change (inject_Z 5) with (5 # 1)%Q.
  field.
Qed.

Lemma value_0_3 : (value false 3 (-1) == 3 # 10)%Q.
Proof. reflexivity. Qed.

Lemma value_zero (s : bool) (e : Z) : (value s 0 e == 0)%Q.
Proof. unfold value. simpl (inject_Z (Z.of_N 0)). ring. Qed.

Lemma value_nonneg (c : N) (e : Z) : (0 <= value false c e)%Q.
Proof.
  unfold value. rewrite Qmult_1_l.
  apply Qmult_le_0_compat.
  - change 0%Q with (inject_Z 0). rewrite <- Zle_Qle. lia.
  - apply Qpower_0_le. discriminate.
Qed.

Lemma value_pos (c : N) (e : Z) : 0 < Z.of_N c -> (0 < value false c e)%Q.
Proof.
  intros Hc. unfold value. rewrite Qmult_1_l.
  apply Qmult_lt_0_compat.
  - change 0%Q with (inject_Z 0). rewrite <- Zlt_Qlt. exact Hc.
  - apply Qpower_0_lt. reflexivity.
Qed.

Lemma is_negative_value (s : bool) (c : N) (e : Z) :
  is_negative (Fin s c e) = true <-> (value s c e < 0)%Q.
Proof.
  unfold is_negative.
  destruct s; simpl andb.
  - destruct (N.eqb_spec c 0%N) as [-> | Hnz]; simpl negb.
    + split; [discriminate|]. intros H.
      pose proof (value_zero true e) as Hz. rewrite Hz in H. discriminate H.
    + split; [intros _ | reflexivity].
      assert (Hp : (0 < value false c e)%Q) by (apply value_pos; lia).
      unfold value in *.
      setoid_replace (-1 * inject_Z (Z.of_N c) * (10 # 1) ^ e)%Q
        with (- (1 * inject_Z (Z.of_N c) * (10 # 1) ^ e))%Q
        using relation Qeq by ring.
      apply Qopp_lt_compat in Hp. exact Hp.
  - split; [discriminate|]. intros H.
    pose proof (value_nonneg c e) as Hn.
    exfalso. apply (Qlt_not_le _ _ H Hn).
Qed.

(** *** The exact range *)

(** On the exact range the result is the discount itself up to tier 5 and
    the cap above. *)
Lemma calculate_discount_exact (user_tier : Z) (s : bool) (c : N) (e : Z) :
  is_negative (Fin s c e) = false ->
  exact_range user_tier c e ->
  calculate_discount user_tier (Fin s c e)
    = Return (if (0 <? c)%N && (5 <? user_tier)
              then Fin s (c * 3) (e + -1)
              else Fin (xorb s (5 * user_tier + 5 <? 0))
                       (c * Z.abs_N (5 * user_tier + 5)) (e + -2)).
Proof.
  intros Hneg (Ht & Hb & Hd & Hc & He).
  unfold calculate_discount. rewrite lt_zero. cbn [obind]. rewrite Hneg.
  destruct (base_exact user_tier Ht Hb) as (tiered & Hm & Ha).
  rewrite Hm. cbn [obind]. rewrite Ha. cbn [obind].
  set (k := 5 * user_tier + 5) in *.
  assert (Hdisc : __mul__ (Fin s c e) (Fin (k <? 0) (Z.abs_N k) (-2))
                  = Return (Fin (xorb s (k <? 0)) (c * Z.abs_N k) (e + -2))).
  { unfold __mul__. cbn [_check_nans]. apply fix_id; [lia | ctx; lia]. }
  assert (Hcap : __mul__ (Fin s c e) d_0_3 = Return (Fin s (c * 3) (e + -1))).
  { unfold __mul__, d_0_3. cbn [_check_nans]. rewrite xorb_false_r.
    apply fix_id; [lia | ctx; lia]. }
  rewrite Hdisc. cbn [obind]. rewrite Hcap. cbn [obind].
  unfold py_min, __lt__. cbn [obind]. f_equal.
  destruct (N.ltb_spec 0 c) as [Hpos | Hzero]; cbn [andb].
  - (* a positive amount *)
    assert (s = false) as ->.
    { unfold is_negative in Hneg. destruct s; [|reflexivity].
      destruct (N.eqb_spec c 0); [lia | discriminate]. }
    cbn [xorb].
    destruct (Z.ltb_spec k 0) as [Hk | Hk].
    + (* a negative rate: the discount is negative *)
      destruct (Z.ltb_spec 5 user_tier); [lia|].
      unfold _cmp.
      destruct (N.eqb_spec (c * 3) 0) as [Hz | _]; [lia|].
      destruct (N.eqb_spec (c * Z.abs_N k) 0) as [Hz | _];
        [apply N.eq_mul_0 in Hz; lia|].
      reflexivity.
    + destruct (Z.eq_dec k 0) as [Hk0 | Hk0].
      * (* a zero rate *)
        destruct (Z.ltb_spec 5 user_tier); [lia|].
        unfold _cmp.
        destruct (N.eqb_spec (c * 3) 0) as [Hz | _]; [lia|].
        destruct (N.eqb_spec (c * Z.abs_N k) 0) as [_ | Hnz]; [|nia].
        reflexivity.
      * rewrite cmp_pos by lia.
        replace (e + -1 - (e + -2)) with 1 by lia.
        replace (e + -2 - (e + -1)) with (-1) by lia.
        change (10 ^ Z.max 0 1) with 10. change (10 ^ Z.max 0 (-1)) with 1.
        destruct (Z.ltb_spec 5 user_tier) as [H5 | H5].
        -- assert (Hlt : Z.of_N (c * 3) * 10 < Z.of_N (c * Z.abs_N k) * 1) by nia.
           apply Z.compare_lt_iff in Hlt. rewrite Hlt. reflexivity.
        -- assert (Hge : Z.of_N (c * Z.abs_N k) * 1 <= Z.of_N (c * 3) * 10) by nia.
           apply Z.compare_ge_iff in Hge.
           destruct (_ ?= _); [reflexivity | contradiction | reflexivity].
  - (* a zero amount *)
    assert (c = 0%N) as -> by lia.
    unfold _cmp. cbn. reflexivity.
Qed.

Lemma value_mul_pos (s : bool) (c c2 : N) (e e2 : Z) :
  (value s (c * c2) (e + e2) == value s c e * value false c2 e2)%Q.
Proof. rewrite <- (xorb_false_r s) at 1. apply value_mul. Qed.

Lemma rate_le (user_tier : Z) : user_tier <= 5 -> (rate user_tier <= 3 # 10)%Q.
Proof. intros H. unfold rate, Qle, Qplus, Qmult, inject_Z. simpl. lia. Qed.

Lemma rate_ge (user_tier : Z) : 5 <= user_tier -> (3 # 10 <= rate user_tier)%Q.
Proof. intros H. unfold rate, Qle, Qplus, Qmult, inject_Z. simpl. lia. Qed.

Lemma value_not_negative (s : bool) (c : N) (e : Z) :
  is_negative (Fin s c e) = false -> (0 <= value s c e)%Q.
Proof.
  intros H. apply Qnot_lt_le. intros Hlt.
  apply is_negative_value in Hlt. congruence.
Qed.

Lemma Qmult_le_compat_l_nonneg (x y z : Q) :
  (x <= y -> 0 <= z -> z * x <= z * y)%Q.
Proof.
  intros Hxy Hz. rewrite (Qmult_comm z x), (Qmult_comm z y).
  apply Qmult_le_compat_r; assumption.
Qed.

(** On the exact range the value returned is the exact minimum. *)
Lemma calculate_discount_exact_value (user_tier : Z) (s : bool) (c : N) (e : Z) :
  is_negative (Fin s c e) = false ->
  exact_range user_tier c e ->
  exists s' c' e',
    calculate_discount user_tier (Fin s c e) = Return (Fin s' c' e')
    /\ (value s' c' e'
        == Qmin (value s c e * rate user_tier) (value s c e * (3 # 10)))%Q.
Proof.
  intros Hneg Hr.
  rewrite (calculate_discount_exact user_tier s c e Hneg Hr).
  pose proof (value_not_negative s c e Hneg) as Hva.
  destruct (N.ltb_spec 0 c) as [Hpos | Hzero]; cbn [andb].
  - destruct (Z.ltb_spec 5 user_tier) as [H5 | H5].
    + exists s, (c * 3)%N, (e + -1). split; [reflexivity|].
      rewrite value_mul_pos, value_0_3.
      symmetry. apply Q.min_r.
      apply Qmult_le_compat_l_nonneg; [apply rate_ge; lia | exact Hva].
    + eexists _, _, _. split; [reflexivity|].
      rewrite value_mul, value_rate. fold (rate user_tier).
      symmetry. apply Q.min_l.
      apply Qmult_le_compat_l_nonneg; [apply rate_le; lia | exact Hva].
  - assert (c = 0%N) as -> by lia.
    eexists _, _, _. split; [reflexivity|].
    rewrite N.mul_0_l. rewrite (value_zero _ (e + -2)).
    transitivity (value s 0 e * rate user_tier)%Q;
      [rewrite value_zero; ring|].
    symmetry. apply Q.min_l.
    rewrite value_zero, !Qmult_0_l. apply Qle_refl.
Qed.

(** *** Rounding half to even, on integers *)

Lemma rhe_bounds (x g : Z) : x / g <= rhe x g <= x / g + 1.
Proof. unfold rhe. destruct (_round_half_even x g); lia. Qed.

(** Rounding does not cross a point of the grid: from below... *)
Lemma rhe_le_grid (x g k : Z) : 0 < g -> x <= k * g -> rhe x g <= k.
Proof.
  intros Hg Hx.
  assert (Hq : x / g <= k).
  { apply Z.div_le_upper_bound; lia. }
  destruct (Z.eq_dec (x / g) k) as [Heq | Hne].
  - pose proof (Z.mod_pos_bound x g Hg) as Hm.
    pose proof (Z.div_mod x g ltac:(lia)) as Hdm.
    assert (Hr : x mod g = 0) by nia.
    unfold rhe, _round_half_even. rewrite Hr, Heq. cbv zeta.
    destruct (Z.ltb_spec g (2 * 0)); [lia|].
    destruct (Z.eqb_spec g (2 * 0)); [lia|]. simpl. lia.
  - pose proof (rhe_bounds x g). lia.
Qed.

(** ... and from above. *)
Lemma rhe_ge_grid (x g k : Z) : 0 < g -> k * g <= x -> k <= rhe x g.
Proof.
  intros Hg Hx.
  assert (Hq : k <= x / g) by (apply Z.div_le_lower_bound; lia).
  pose proof (rhe_bounds x g). lia.
Qed.

Lemma rhe_mono (x y g : Z) : 0 < g -> x <= y -> rhe x g <= rhe y g.
Proof.
  intros Hg Hxy.
  pose proof (Z.div_le_mono x y g Hg Hxy) as Hq.
  destruct (Z.eq_dec (x / g) (y / g)) as [Heq | Hne].
  - (* same interval of the grid: the rests decide *)
    pose proof (Z.div_mod x g ltac:(lia)) as Hx.
    pose proof (Z.div_mod y g ltac:(lia)) as Hy.
    assert (Hr : x mod g <= y mod g) by nia.
    unfold rhe, _round_half_even. cbv zeta. rewrite Heq.
    destruct (Z.ltb_spec g (2 * (x mod g))) as [H1 | H1];
      destruct (Z.ltb_spec g (2 * (y mod g))) as [H2 | H2];
      destruct (Z.eqb_spec g (2 * (x mod g))) as [H3 | H3];
      destruct (Z.eqb_spec g (2 * (y mod g))) as [H4 | H4];
      destruct (Z.odd (y / g)); simpl; lia.
  - apply Z.le_trans with (x / g + 1); [apply rhe_bounds|].
    apply Z.le_trans with (y / g); [lia | apply rhe_bounds].
Qed.

(** Scaling the number and the grid alike changes nothing. *)
Lemma rhe_scale (x g f : Z) : 0 < g -> 0 < f -> rhe (x * f) (g * f) = rhe x g.
Proof.
  intros Hg Hf. unfold rhe, _round_half_even. cbv zeta.
  rewrite Z.div_mul_cancel_r by lia.
  rewrite Z.mul_mod_distr_r by lia.
  replace (g * f <? 2 * (x mod g * f)) with (g <? 2 * (x mod g)).
  2:{ destruct (Z.ltb_spec g (2 * (x mod g)));
      destruct (Z.ltb_spec (g * f) (2 * (x mod g * f))); try reflexivity; nia. }
  replace (g * f =? 2 * (x mod g * f)) with (g =? 2 * (x mod g)).
  2:{ destruct (Z.eqb_spec g (2 * (x mod g)));
      destruct (Z.eqb_spec (g * f) (2 * (x mod g * f))); try reflexivity; nia. }
  reflexivity.
Qed.

(** A number on the grid is its own rounding. *)
Lemma rhe_exact (k g : Z) : 0 < g -> rhe (k * g) g = k.
Proof.
  intros Hg. apply Z.le_antisymm.
  - apply rhe_le_grid; lia.
  - apply rhe_ge_grid; lia.
Qed.

(** *** What [_fix] computes *)

Lemma ndigits_0 : ndigits 0 = 1.
Proof. reflexivity. Qed.

Lemma ndigits_above (x k : Z) : 1 <= k -> k < ndigits x -> 10 ^ k <= x.
Proof.
  intros Hk Hn.
  destruct (Z.ltb_spec 0 x) as [Hpos | Hle].
  - destruct (ndigits_spec x Hpos) as (_ & Hlo & _).
    apply Z.le_trans with (10 ^ (ndigits x - 1)); [|exact Hlo].
    apply Z.pow_le_mono_r; lia.
  - exfalso. unfold ndigits in Hn. cbn [ndigits_fuel] in Hn.
    destruct (Z.ltb_spec x 10); lia.
Qed.

(** A non-zero number whose last digit is above the quantum is returned as
    it is; any other is cut at the quantum and rounded half to even. *)
Lemma fix_sem (s s' : bool) (c c' : N) (e e' : Z) :
  0 < Z.of_N c ->
  _fix s c e = Return (Fin s' c' e') ->
  let q := quantum (Z.of_N c) e in
  s' = s
  /\ ((q <= e /\ c' = c /\ e' = e)
      \/ (e < q /\ q <= e'
          /\ Z.of_N c' * 10 ^ (e' - q) = rhe (Z.of_N c) (10 ^ (q - e)))).
Proof.
  intros Hc. unfold _fix, quantum.
  destruct (Z.eqb_spec (Z.of_N c) 0) as [H0 | _]; [lia|].
  destruct (ndigits_spec _ Hc) as (Hn & Hlo & Hhi).
  set (nd := ndigits (Z.of_N c)) in *. cbv zeta.
  destruct (Z.gtb_spec (nd + e - Ctx.prec) Ctx.Etop) as [Hov | Hnov];
    [discriminate|].
  set (q := if nd + e - Ctx.prec <? Ctx.Etiny then Ctx.Etiny
            else nd + e - Ctx.prec).
  assert (Hq : q = Z.max (nd + e - Ctx.prec) Ctx.Etiny).
  { subst q. destruct (Z.ltb_spec (nd + e - Ctx.prec) Ctx.Etiny); lia. }
  rewrite <- Hq.
  destruct (Z.ltb_spec e q) as [Hround | Hkeep].
  2:{ intros Hret. injection Hret as <- <- <-. split; [reflexivity|]. left. lia. }
  destruct (Z.ltb_spec (nd + e - q) 0) as [Hnone | Hsome].
  - (* not even the first digit reaches the quantum *)
    change (ndigits 1 - 0) with 1. change (10 ^ 1) with 10.
    change (_round_half_even 1 10) with false. cbv iota.
    change (1 / 10) with 0. rewrite ndigits_0.
    cbn [andb]. cbv iota.
    destruct (Z.gtb_spec q Ctx.Etop); [discriminate|].
    intros Hret. injection Hret as <- <- <-. split; [reflexivity|]. right.
    split; [exact Hround|]. split; [lia|].
    assert (Hu : 10 * Z.of_N c < 10 ^ (q - e)).
    { apply Z.lt_le_trans with (10 ^ (nd + 1)).
      - rewrite Z.pow_add_r by lia. lia.
      - apply Z.pow_le_mono_r; lia. }
    unfold rhe, _round_half_even. cbv zeta.
    rewrite Z.div_small, Z.mod_small by lia.
    destruct (Z.ltb_spec (10 ^ (q - e)) (2 * Z.of_N c)); [lia|].
    destruct (Z.eqb_spec (10 ^ (q - e)) (2 * Z.of_N c)); [lia|].
    reflexivity.
  - (* the first [nd + e - q] digits are kept *)
    change (ndigits (Z.of_N c)) with nd.
    replace (nd - (nd + e - q)) with (q - e) by lia.
    set (u := 10 ^ (q - e)).
    assert (Hu : 0 < u) by (apply pow10_pos; lia).
    fold (rhe (Z.of_N c) u).
    replace (if _round_half_even (Z.of_N c) u
             then Z.of_N c / u + 1 else Z.of_N c / u)
      with (rhe (Z.of_N c) u)
      by (unfold rhe; destruct (_round_half_even (Z.of_N c) u); lia).
    assert (Hr0 : 0 <= rhe (Z.of_N c) u).
    { apply rhe_ge_grid; [exact Hu | lia]. }
    assert (Hr1 : rhe (Z.of_N c) u <= 10 ^ Ctx.prec).
    { apply Z.le_trans with (10 ^ (nd + e - q)).
      - apply rhe_le_grid; [exact Hu|]. subst u.
        rewrite <- Z.pow_add_r by lia.
        replace (nd + e - q + (q - e)) with nd by lia. lia.
      - apply Z.pow_le_mono_r; lia. }
    destruct (_round_half_even (Z.of_N c) u
              && (ndigits (rhe (Z.of_N c) u) >? Ctx.prec)) eqn:Ecarry.
    + apply andb_true_iff in Ecarry as [_ Hcarry].
      apply Z.gtb_lt in Hcarry.
      destruct (Z.gtb_spec (q + 1) Ctx.Etop); [discriminate|].
      intros Hret. injection Hret as <- <- <-. split; [reflexivity|]. right.
      split; [exact Hround|]. split; [lia|].
      assert (Hr2 : 10 ^ Ctx.prec <= rhe (Z.of_N c) u).
      { apply ndigits_above; [ctx; lia | lia]. }
      assert (Hr : rhe (Z.of_N c) u = 10 ^ Ctx.prec) by lia.
      rewrite Hr. replace (q + 1 - q) with 1 by lia. ctx. reflexivity.
    + destruct (Z.gtb_spec q Ctx.Etop); [discriminate|].
      intros Hret. injection Hret as <- <- <-. split; [reflexivity|]. right.
      split; [exact Hround|]. split; [lia|].
      rewrite Z.sub_diag, Z.pow_0_r, Z.mul_1_r. apply Z2N.id, Hr0.
Qed.

(** *** Rounding is monotone *)

Lemma pow10_split (a b : Z) : 0 <= a -> 0 <= b -> 10 ^ (a + b) = 10 ^ a * 10 ^ b.
Proof. intros. apply Z.pow_add_r; assumption. Qed.

(** In units of [10 ^ m], [_fix] rounds to the multiples of the quantum. *)
Lemma fix_grid (s s' : bool) (c c' : N) (e e' m : Z) :
  0 < Z.of_N c ->
  _fix s c e = Return (Fin s' c' e') ->
  m <= e -> m <= Ctx.Etiny ->
  let g := 10 ^ (quantum (Z.of_N c) e - m) in
  scaled m c' e' = rhe (scaled m c e) g * g.
Proof.
  intros Hc Hfix Hme Hmt.
  destruct (fix_sem s s' c c' e e' Hc Hfix) as (_ & Hsem).
  set (q := quantum (Z.of_N c) e) in *. cbv zeta.
  assert (Hqm : m <= q) by (subst q; unfold quantum; lia).
  assert (Hg : 0 < 10 ^ (q - m)) by (apply pow10_pos; lia).
  unfold scaled.
  destruct Hsem as [(Hqe & -> & ->) | (Heq & Hqe' & Hval)].
  - replace (e - m) with (e - q + (q - m)) by lia.
    rewrite pow10_split by lia. rewrite Z.mul_assoc.
    rewrite rhe_exact by exact Hg. reflexivity.
  - replace (e' - m) with (e' - q + (q - m)) by lia.
    rewrite pow10_split by lia. rewrite Z.mul_assoc, Hval.
    f_equal.
    replace (q - m) with (q - e + (e - m)) by lia.
    rewrite pow10_split by lia.
    symmetry. apply rhe_scale; apply pow10_pos; lia.
Qed.

(** The larger number has at least as many digits before the point. *)
Lemma scaled_digits (m : Z) (c1 c2 : N) (e1 e2 : Z) :
  0 < Z.of_N c1 -> 0 < Z.of_N c2 -> m <= e1 -> m <= e2 ->
  scaled m c1 e1 <= scaled m c2 e2 ->
  ndigits (Z.of_N c1) + e1 <= ndigits (Z.of_N c2) + e2.
Proof.
  intros H1 H2 Hm1 Hm2 Hle. unfold scaled in Hle.
  destruct (ndigits_spec _ H1) as (Hn1 & Hlo1 & _).
  destruct (ndigits_spec _ H2) as (Hn2 & _ & Hhi2).
  set (n1 := ndigits (Z.of_N c1)) in *. set (n2 := ndigits (Z.of_N c2)) in *.
  destruct (Z.leb_spec (n1 + e1) (n2 + e2)) as [Hok | Hbad]; [exact Hok|].
  exfalso.
  assert (Ha : 10 ^ (n1 - 1 + (e1 - m)) <= Z.of_N c1 * 10 ^ (e1 - m)).
  { rewrite pow10_split by lia. apply Z.mul_le_mono_nonneg_r; [|exact Hlo1].
    apply Z.lt_le_incl, pow10_pos. lia. }
  assert (Hb : Z.of_N c2 * 10 ^ (e2 - m) < 10 ^ (n2 + (e2 - m))).
  { rewrite pow10_split by lia. apply Z.mul_lt_mono_pos_r; [|exact Hhi2].
    apply pow10_pos. lia. }
  assert (Hc : 10 ^ (n2 + (e2 - m)) <= 10 ^ (n1 - 1 + (e1 - m))).
  { apply Z.pow_le_mono_r; lia. }
  lia.
Qed.

(** [_fix] is monotone on the positive numbers it does not overflow on. *)
Lemma fix_mono (s1 s1' s2 s2' : bool) (c1 c1' c2 c2' : N)
    (e1 e1' e2 e2' m : Z) :
  0 < Z.of_N c1 -> 0 < Z.of_N c2 ->
  _fix s1 c1 e1 = Return (Fin s1' c1' e1') ->
  _fix s2 c2 e2 = Return (Fin s2' c2' e2') ->
  m <= e1 -> m <= e2 -> m <= Ctx.Etiny ->
  scaled m c1 e1 <= scaled m c2 e2 ->
  scaled m c1' e1' <= scaled m c2' e2'.
Proof.
  intros H1 H2 Hf1 Hf2 Hm1 Hm2 Hmt Hle.
  rewrite (fix_grid _ _ _ _ _ _ m H1 Hf1 Hm1 Hmt).
  rewrite (fix_grid _ _ _ _ _ _ m H2 Hf2 Hm2 Hmt).
  pose proof (scaled_digits m c1 c2 e1 e2 H1 H2 Hm1 Hm2 Hle) as Hd.
  destruct (ndigits_spec _ H1) as (Hn1 & Hlo1 & Hhi1).
  destruct (ndigits_spec _ H2) as (Hn2 & Hlo2 & Hhi2).
  unfold quantum.
  set (n1 := ndigits (Z.of_N c1)) in *. set (n2 := ndigits (Z.of_N c2)) in *.
  set (q1 := Z.max (n1 + e1 - Ctx.prec) Ctx.Etiny).
  set (q2 := Z.max (n2 + e2 - Ctx.prec) Ctx.Etiny).
  assert (Hq : q1 <= q2) by lia.
  assert (Hg1 : 0 < 10 ^ (q1 - m)) by (apply pow10_pos; lia).
  assert (Hg2 : 0 < 10 ^ (q2 - m)) by (apply pow10_pos; lia).
  destruct (Z.eq_dec q1 q2) as [Heq | Hne].
  - (* the same grid *)
    rewrite <- Heq. apply Z.mul_le_mono_nonneg_r; [lia|].
    apply rhe_mono; [exact Hg1 | exact Hle].
  - (* a power of ten of both grids lies between the two numbers *)
    assert (Hq2 : q2 = n2 + e2 - Ctx.prec) by lia.
    set (p := 10 ^ (n2 + e2 - 1 - m)).
    apply Z.le_trans with p.
    + (* the smaller number rounds to at most [p] *)
      assert (Hp : p = 10 ^ (n2 + e2 - 1 - q1) * 10 ^ (q1 - m)).
      { subst p. rewrite <- pow10_split by (ctx; lia). f_equal. lia. }
      rewrite Hp. apply Z.mul_le_mono_nonneg_r; [lia|].
      apply rhe_le_grid; [exact Hg1|]. rewrite <- Hp. subst p.
      unfold scaled.
      apply Z.le_trans with (10 ^ (n1 + (e1 - m))).
      * rewrite pow10_split by lia.
        apply Z.mul_le_mono_nonneg_r; [apply Z.lt_le_incl, pow10_pos; lia | lia].
      * apply Z.pow_le_mono_r; [lia|]. ctx. lia.
    + (* the larger one to at least [p] *)
      assert (Hp : p = 10 ^ (Ctx.prec - 1) * 10 ^ (q2 - m)).
      { subst p. rewrite <- pow10_split by (ctx; lia). f_equal. ctx. lia. }
      rewrite Hp. apply Z.mul_le_mono_nonneg_r; [lia|].
      apply rhe_ge_grid; [exact Hg2|]. rewrite <- Hp. subst p.
      unfold scaled.
      replace (n2 + e2 - 1 - m) with (n2 - 1 + (e2 - m)) by lia.
      rewrite pow10_split by lia.
      apply Z.mul_le_mono_nonneg_r; [apply Z.lt_le_incl, pow10_pos; lia | lia].
Qed.

(** *** Values and their order *)

Lemma pow10_Q_pos (m : Z) : (0 < (10 # 1) ^ m)%Q.
Proof. apply Qpower_0_lt. reflexivity. Qed.

Lemma value_scaled (m : Z) (c : N) (e : Z) :
  m <= e ->
  (value false c e == inject_Z (scaled m c e) * (10 # 1) ^ m)%Q.
Proof.
  intros Hm. unfold value, scaled.
  rewrite Qmult_1_l, inject_Z_mult.
  rewrite Zpower_Qpower by lia. change (inject_Z 10) with (10 # 1)%Q.
  rewrite <- Qmult_assoc, <- Qpower_plus by apply ten_neq_0.
  replace (e - m + m) with e by lia. reflexivity.
Qed.

Lemma value_le_scaled (m : Z) (c1 c2 : N) (e1 e2 : Z) :
  m <= e1 -> m <= e2 ->
  (value false c1 e1 <= value false c2 e2)%Q
  <-> scaled m c1 e1 <= scaled m c2 e2.
Proof.
  intros H1 H2.
  rewrite (value_scaled m c1 e1 H1), (value_scaled m c2 e2 H2).
  rewrite Qmult_le_r by apply pow10_Q_pos.
  rewrite <- Zle_Qle. reflexivity.
Qed.

Lemma value_lt_scaled (m : Z) (c1 c2 : N) (e1 e2 : Z) :
  m <= e1 -> m <= e2 ->
  (value false c1 e1 < value false c2 e2)%Q
  <-> scaled m c1 e1 < scaled m c2 e2.
Proof.
  intros H1 H2.
  rewrite (value_scaled m c1 e1 H1), (value_scaled m c2 e2 H2).
  rewrite Qmult_lt_r by apply pow10_Q_pos.
  rewrite <- Zlt_Qlt. reflexivity.
Qed.

(** [_cmp] orders the non-negative numbers by value. *)
Lemma cmp_nonneg (c1 c2 : N) (e1 e2 : Z) :
  _cmp (Fin false c1 e1) (Fin false c2 e2) = Lt
  <-> (value false c1 e1 < value false c2 e2)%Q.
Proof.
  set (m := Z.min e1 e2).
  rewrite (value_lt_scaled m) by lia. unfold scaled.
  assert (P1 : 0 < 10 ^ (e1 - m)) by (apply pow10_pos; lia).
  assert (P2 : 0 < 10 ^ (e2 - m)) by (apply pow10_pos; lia).
  destruct (N.eq_dec c1 0%N) as [-> | Hc1]; destruct (N.eq_dec c2 0%N) as [-> | Hc2].
  - cbn. split; [discriminate | lia].
  - unfold _cmp. cbn [N.eqb].
    destruct (N.eqb_spec c2 0%N) as [? | _]; [contradiction|].
    cbn. split; [intros _; nia | reflexivity].
  - unfold _cmp.
    destruct (N.eqb_spec c1 0%N) as [? | _]; [contradiction|].
    cbn. split; [discriminate | nia].
  - rewrite cmp_pos by lia. rewrite Z.compare_lt_iff.
    replace (e1 - m) with (Z.max 0 (e1 - e2)) by lia.
    replace (e2 - m) with (Z.max 0 (e2 - e1)) by lia.
    reflexivity.
Qed.

(** Two zeros compare equal, whatever their signs. *)
Lemma cmp_zeros (s1 s2 : bool) (e1 e2 : Z) :
  _cmp (Fin s1 0 e1) (Fin s2 0 e2) = Eq.
Proof. reflexivity. Qed.

(** *** Shapes of the results *)

Lemma fix_returns_fin (s : bool) (c : N) (e : Z) (d : Decimal) :
  _fix s c e = Return d -> exists c' e', d = Fin s c' e'.
Proof.
  unfold _fix. cbv zeta. split_ifs; intros H; try discriminate;
    injection H as <-; eexists _, _; reflexivity.
Qed.

Lemma fix_zero_returns (s : bool) (e : Z) (d : Decimal) :
  _fix s 0 e = Return d -> exists e', d = Fin s 0 e'.
Proof.
  unfold _fix. simpl (Z.of_N 0 =? 0). cbv iota.
  intros H. injection H as <-. eexists. reflexivity.
Qed.

Lemma obind_return {A B} (m : outcome A) (k : A -> outcome B) (b : B) :
  obind m k = Return b -> exists a, m = Return a /\ k a = Return b.
Proof.
  destruct m as [a | x]; simpl; [|discriminate].
  intros H. exists a. split; [reflexivity | exact H].
Qed.

(** [_fix] is monotone in the value, on the positive numbers. *)
Lemma fix_mono_value (s1 s2 : bool) (c1 c1' c2 c2' : N) (e1 e1' e2 e2' : Z) :
  0 < Z.of_N c1 -> 0 < Z.of_N c2 ->
  _fix s1 c1 e1 = Return (Fin s1 c1' e1') ->
  _fix s2 c2 e2 = Return (Fin s2 c2' e2') ->
  (value false c1 e1 <= value false c2 e2)%Q ->
  (value false c1' e1' <= value false c2' e2')%Q.
Proof.
  intros H1 H2 Hf1 Hf2 Hle.
  set (m := Z.min (Z.min e1 e2) Ctx.Etiny).
  assert (He1 : e1 <= e1').
  { destruct (fix_sem _ _ _ _ _ _ H1 Hf1) as (_ & [(_ & _ & ->) | (? & ? & _)]);
      unfold quantum in *; lia. }
  assert (He2 : e2 <= e2').
  { destruct (fix_sem _ _ _ _ _ _ H2 Hf2) as (_ & [(_ & _ & ->) | (? & ? & _)]);
      unfold quantum in *; lia. }
  apply (value_le_scaled m) in Hle; [|lia|lia].
  apply (value_le_scaled m); [lia | lia |].
  apply (fix_mono s1 s1 s2 s2 c1 c1' c2 c2' e1 e1' e2 e2' m); try assumption; lia.
Qed.

(** *** The rate, rounded or not *)

Lemma scaled_same (m : Z) (c : N) : scaled m c m = Z.of_N c.
Proof. unfold scaled. rewrite Z.sub_diag. simpl. lia. Qed.

(** For a positive tier, [Decimal(user_tier) * Decimal("0.05")] is a
    positive number, at least [0.05 * k] whenever the tier is at least
    [k]. *)
Lemma tiered_pos (user_tier : Z) (d : Decimal) :
  0 < user_tier ->
  __mul__ (of_int user_tier) d_0_05 = Return d ->
  exists ct et,
    d = Fin false ct et /\ 0 < Z.of_N ct /\ -2 <= et
    /\ (forall k, 0 < k <= user_tier -> k < 10 ^ 27 ->
                  5 * k <= scaled (-2) ct et).
Proof.
  intros Ht Hmul. unfold __mul__, of_int, d_0_05 in Hmul.
  cbn [_check_nans] in Hmul.
  destruct (Z.ltb_spec user_tier 0) as [? | _]; [lia|].
  cbn [xorb] in Hmul. change (0 + -2) with (-2) in Hmul.
  destruct (fix_returns_fin _ _ _ _ Hmul) as (ct & et & ->).
  assert (Hc : 0 < Z.of_N (Z.abs_N user_tier * 5)) by lia.
  assert (Het : -2 <= et).
  { destruct (fix_sem _ _ _ _ _ _ Hc Hmul) as (_ & [(_ & _ & ->) | (? & ? & _)]);
      lia. }
  assert (Hk : forall k, 0 < k <= user_tier -> k < 10 ^ 27 ->
                         5 * k <= scaled (-2) ct et).
  { intros k Hk Hk27.
    assert (Hfk : _fix false (Z.to_N (5 * k)) (-2)
                  = Return (Fin false (Z.to_N (5 * k)) (-2))).
    { apply fix_exact; [lia | ctx; lia]. }
    assert (Hle : (value false (Z.to_N (5 * k)) (-2)
                   <= value false (Z.abs_N user_tier * 5) (-2))%Q).
    { apply (value_le_scaled (-2)); [lia | lia |].
      rewrite !scaled_same. lia. }
    assert (Hk0 : 0 < Z.of_N (Z.to_N (5 * k))) by lia.
    pose proof (fix_mono_value false false _ _ _ _ _ _ _ _
                  Hk0 Hc Hfk Hmul Hle) as Hv.
    apply (value_le_scaled (-2)) in Hv; [|lia|lia].
    rewrite scaled_same in Hv. lia. }
  exists ct, et. split; [reflexivity|]. split; [|split; [exact Het | exact Hk]].
  specialize (Hk 1 ltac:(lia) ltac:(lia)).
  unfold scaled in Hk. destruct (Z.of_N ct) eqn:E; lia.
Qed.

(** Adding [0.05] to a positive number of exponent at least [-2]: the sum
    that is then rounded is at least the exact sum (it is the exact sum,
    unless the number is so large that [0.05] cannot change its rounding,
    and a unit further down stands in for it). *)
Lemma add_shape (ct : N) (et : Z) :
  0 < Z.of_N ct -> -2 <= et ->
  exists S x,
    __add__ d_0_05 (Fin false ct et) = _fix false S x
    /\ -2 <= x
    /\ 5 + scaled (-2) ct et <= scaled (-2) S x.
Proof.
  intros Hc He. unfold __add__, d_0_05. cbn [_check_nans].
  change ((5 =? 0)%N) with false. cbn [andb].
  destruct (N.eqb_spec ct 0%N) as [? | _]; [lia|].
  change (Z.of_N 5) with 5. cbn [Bool.eqb].
  destruct (Z.eq_dec et (-2)) as [-> | Hne].
  - rewrite normalize_same_exp by exact Hc.
    exists (Z.to_N (5 + Z.of_N ct)), (-2).
    split; [reflexivity|]. split; [lia|].
    rewrite !scaled_same. lia.
  - unfold _normalize.
    destruct (Z.ltb_spec (-2) et) as [_ | ?]; [|lia].
    cbv iota beta zeta.
    change (ndigits 5 + -2 - 1) with (-2).
    set (exp := et + Z.min (-1) (ndigits (Z.of_N ct) - Ctx.prec - 2)).
    destruct (Z.ltb_spec (-2) exp) as [Hrepl | Hkeep]; cbv iota beta.
    + exists (Z.to_N (1 + Z.of_N ct * 10 ^ (et - exp))), exp.
      split; [reflexivity|]. split; [lia|].
      assert (Hp : 0 < 10 ^ (et - exp)) by (apply pow10_pos; lia).
      unfold scaled. rewrite Z2N.id by nia.
      replace (et - -2) with (et - exp + (exp - -2)) by lia.
      rewrite pow10_split by lia.
      assert (Hq : 10 <= 10 ^ (exp - -2)).
      { change 10 with (10 ^ 1) at 1. apply Z.pow_le_mono_r; lia. }
      nia.
    + exists (Z.to_N (5 + Z.of_N ct * 10 ^ (et - -2))), (-2).
      split; [reflexivity|]. split; [lia|].
      assert (Hp : 0 < 10 ^ (et - -2)) by (apply pow10_pos; lia).
      rewrite scaled_same. unfold scaled. rewrite Z2N.id by nia. lia.
Qed.

(** So, for a tier that is not negative, the rate is a number that is not
    negative, and at least [0.30] from tier 5 on. *)
Lemma base_shape (user_tier : Z) (tiered base : Decimal) :
  0 <= user_tier ->
  __mul__ (of_int user_tier) d_0_05 = Return tiered ->
  __add__ d_0_05 tiered = Return base ->
  exists cb eb,
    base = Fin false cb eb
    /\ (5 <= user_tier ->
        0 < Z.of_N cb /\ (value false 3 (-1) <= value false cb eb)%Q).
Proof.
  intros Ht Hmul Hadd.
  destruct (Z.eq_dec user_tier 0) as [-> | Hnz].
  { vm_compute in Hmul. injection Hmul as <-.
    vm_compute in Hadd. injection Hadd as <-.
    exists 5%N, (-2). split; [reflexivity | lia]. }
  destruct (tiered_pos user_tier tiered ltac:(lia) Hmul)
    as (ct & et & -> & Hct & Het & Hk).
  destruct (add_shape ct et Hct Het) as (S & x & Heq & Hx & Hsum).
  rewrite Heq in Hadd.
  destruct (fix_returns_fin _ _ _ _ Hadd) as (cb & eb & ->).
  exists cb, eb. split; [reflexivity|]. intros H5.
  specialize (Hk 5 ltac:(lia) ltac:(lia)).
  assert (HS : 0 < Z.of_N S).
  { unfold scaled in Hsum. destruct (Z.of_N S) eqn:E; lia. }
  assert (H30 : _fix false 30 (-2) = Return (Fin false 30 (-2))).
  { vm_compute. reflexivity. }
  assert (Hle : (value false 30 (-2) <= value false S x)%Q).
  { apply (value_le_scaled (-2)); [lia | lia |]. rewrite scaled_same.
    change (Z.of_N 30) with 30. lia. }
  assert (H30' : 0 < Z.of_N 30) by lia.
  pose proof (fix_mono_value false false _ _ _ _ _ _ _ _
                H30' HS H30 Hadd Hle) as Hv.
  assert (H3 : (value false 3 (-1) == value false 30 (-2))%Q) by reflexivity.
  split; [|rewrite H3; exact Hv].
  destruct (N.eq_dec cb 0%N) as [-> | Hnz']; [|lia].
  rewrite value_zero in Hv. exfalso. revert Hv. vm_compute. intros Hv.
  apply Hv. reflexivity.
Qed.

(** *** The result against the cap *)

(** For a tier and a finite amount that are not negative, whatever is
    returned is at most the cap as the multiplication computes it, and from
    tier 5 on it has the value of the cap. *)
Lemma calculate_discount_capped (user_tier : Z) (s : bool) (c : N) (e : Z)
    (r : Decimal) :
  0 <= user_tier ->
  is_negative (Fin s c e) = false ->
  calculate_discount user_tier (Fin s c e) = Return r ->
  exists sr cr er sc cc ec,
    r = Fin sr cr er
    /\ __mul__ (Fin s c e) d_0_3 = Return (Fin sc cc ec)
    /\ (value sr cr er <= value sc cc ec)%Q
    /\ (5 <= user_tier -> (value sr cr er == value sc cc ec)%Q).
Proof.
  intros Ht Hneg. unfold calculate_discount.
  rewrite lt_zero. cbn [obind]. rewrite Hneg. intros H.
  apply obind_return in H as (tiered & Hmul & H).
  apply obind_return in H as (base & Hadd & H).
  apply obind_return in H as (discount & Hdisc & H).
  apply obind_return in H as (cap & Hcap & H).
  destruct (base_shape user_tier tiered base Ht Hmul Hadd)
    as (cb & eb & -> & Hbase).
  rewrite Hcap.
  unfold __mul__, d_0_3 in Hdisc, Hcap. cbn [_check_nans] in Hdisc, Hcap.
  rewrite xorb_false_r in Hdisc, Hcap.
  destruct (N.eq_dec c 0%N) as [-> | Hnz].
  - (* a zero amount: everything is zero *)
    rewrite N.mul_0_l in Hdisc, Hcap.
    destruct (fix_zero_returns _ _ _ Hdisc) as (ed & ->).
    destruct (fix_zero_returns _ _ _ Hcap) as (ec & ->).
    unfold py_min, __lt__ in H. rewrite cmp_zeros in H. cbn [obind] in H.
    injection H as <-.
    exists s, 0%N, ed, s, 0%N, ec.
    split; [reflexivity|]. split; [reflexivity|].
    rewrite !value_zero. split; [apply Qle_refl | reflexivity].
  - (* a positive amount *)
    assert (s = false) as ->.
    { unfold is_negative in Hneg. destruct s; [|reflexivity].
      destruct (N.eqb_spec c 0%N); [contradiction | discriminate]. }
    destruct (fix_returns_fin _ _ _ _ Hdisc) as (cd & ed & ->).
    destruct (fix_returns_fin _ _ _ _ Hcap) as (cc & ec & ->).
    unfold py_min, __lt__ in H. cbn [obind] in H.
    destruct (_cmp (Fin false cc ec) (Fin false cd ed)) eqn:E;
      injection H as <-.
    2:{ (* the cap is the smaller one *)
        exists false, cc, ec, false, cc, ec.
        split; [reflexivity|]. split; [reflexivity|].
        split; [apply Qle_refl | reflexivity]. }
    all: exists false, cd, ed, false, cc, ec.
    all: split; [reflexivity|]; split; [reflexivity|].
    all: assert (Hle : (value false cd ed <= value false cc ec)%Q)
           by (apply Qnot_lt_le; intros Hlt; apply cmp_nonneg in Hlt;
               congruence).
    all: split; [exact Hle|]; intros H5.
    all: destruct (Hbase H5) as (Hcb & Hrate).
    all: apply Qle_antisym; [exact Hle|].
    all: apply (fix_mono_value false false (c * 3) cc (c * cb) cd
                  (e + -1) ec (e + eb) ed); [lia | nia | exact Hcap | exact Hdisc |].
    all: rewrite !value_mul_pos.
    all: apply Qmult_le_compat_l_nonneg; [exact Hrate | apply value_nonneg].
Qed.

(** C10, as stated, fails. The amount [0.6666666666666666666666666666] is
    not negative; at tier 5 the two products have 30 and 29 digits and are
    rounded up to 28, so that the result, [0.2000000000000000000000000000],
    is more than 30% of the amount. And for a NaN amount, which is not
    negative either, the function raises [InvalidOperation] and returns
    nothing. *)
Lemma C10_rounding_exceeds_cap :
  is_negative two_thirds = false
  /\ calculate_discount 5 two_thirds
     = Return (Fin false 2000000000000000000000000000 (-28))
  /\ ((3 # 10) * value false 6666666666666666666666666666 (-28)
      < value false 2000000000000000000000000000 (-28))%Q
  /\ is_negative (NaN false false) = false
  /\ calculate_discount 0 (NaN false false) = Raise InvalidOperation.
Proof.
  split; [reflexivity|].
  split; [vm_compute; reflexivity|].
  split; [vm_compute; reflexivity|].
  split; reflexivity.
Qed.

(** C10, amended. For every integer tier and every [Decimal] amount,
    [calculate_discount] raises its [ValueError] exactly when the amount is
    negative (for a finite amount: when its value is below zero). Every
    operation rounds to the 28 digits of the context, so for a finite amount
    and a tier that are not negative, whatever is returned never exceeds the
    cap [amount * Decimal("0.3")] as that product is computed, and from tier
    5 on it has the value of that cap. As long as no operation has to round
    (the exact range: the coefficients that come up have at most 28 digits
    and the exponent is in range), a value is returned and it is exactly
    [min(amount * (0.05 + 0.05 * tier), amount * 0.3)]; it then never
    exceeds 30% of the amount, and from tier 5 on it is exactly
    [amount * 0.3]. *)
Theorem C10_calculate_discount :
  forall (user_tier : Z) (amount : Decimal),
    (calculate_discount user_tier amount = Raise (ValueError "Negative amount")
     <-> is_negative amount = true)
    /\ (forall s c e, amount = Fin s c e ->
          (is_negative amount = true <-> (value s c e < 0)%Q)
          /\ (is_negative amount = false ->
              0 <= user_tier ->
              forall r, calculate_discount user_tier amount = Return r ->
              exists sr cr er sc cc ec,
                r = Fin sr cr er
                /\ __mul__ amount d_0_3 = Return (Fin sc cc ec)
                /\ (value sr cr er <= value sc cc ec)%Q
                /\ (5 <= user_tier -> (value sr cr er == value sc cc ec)%Q))
          /\ (is_negative amount = false ->
              exact_range user_tier c e ->
              exists s' c' e',
                calculate_discount user_tier amount = Return (Fin s' c' e')
                /\ (value s' c' e'
                    == Qmin (value s c e * rate user_tier)
                            (value s c e * (3 # 10)))%Q
                /\ (value s' c' e' <= (3 # 10) * value s c e)%Q
                /\ (5 <= user_tier ->
                    (value s' c' e' == (3 # 10) * value s c e)%Q))).
Proof.
  intros user_tier amount.
  split; [apply calculate_discount_negative|].
  intros s c e ->. split; [apply is_negative_value|].
  split.
  { intros Hneg Ht r Hr.
    apply (calculate_discount_capped user_tier s c e r Ht Hneg Hr). }
  intros Hneg Hr.
  destruct (calculate_discount_exact_value user_tier s c e Hneg Hr)
    as (s' & c' & e' & Hret & Hval).
  exists s', c', e'. split; [exact Hret|]. split; [exact Hval|].
  pose proof (value_not_negative s c e Hneg) as Hva.
  split.
  - rewrite Hval, (Qmult_comm (3 # 10)). apply Q.le_min_r.
  - intros H5. rewrite Hval, (Qmult_comm (3 # 10)). apply Q.min_r.
    apply Qmult_le_compat_l_nonneg; [apply rate_ge, H5 | exact Hva].
Qed.

(** The exact range is not empty: 100.00 at tier 2 gives 15.0000, and at
    tier 7 the cap, 30.000. *)
Lemma calculate_discount_examples :
  exact_range 2 10000 (-2) /\ exact_range 7 10000 (-2)
  /\ calculate_discount 2 hundred = Return (Fin false 150000 (-4))
  /\ calculate_discount 7 hundred = Return (Fin false 30000 (-3)).
Proof.
  assert (R : forall t, Z.abs t < 100 -> exact_range t 10000 (-2)).
  { intros t Ht. unfold exact_range. ctx. repeat split; lia. }
  split; [apply R; lia|]. split; [apply R; lia|].
  split; vm_compute; reflexivity.
Qed.

(** * Further properties of the three examples *)

(** ** process_message *)

Local Open Scope string_scope.

(** X1: [process_message] reads the keys [text], [chat_session_id] and
    [chat_user_id] and nothing else: two payloads that agree on these three
    keys give the same outcome, whatever other keys they hold. *)
Theorem X1_process_message_reads_three_keys :
  forall (W : Type) (p p' : payload) (w : W),
    p !! "text" = p' !! "text" ->
    p !! "chat_session_id" = p' !! "chat_session_id" ->
    p !! "chat_user_id" = p' !! "chat_user_id" ->
    process_message p w = process_message p' w.
Proof.
  intros W p p' w Ht Hs Hu.
  unfold process_message, bind, ret, raise, dict_get.
  rewrite Ht, Hs, Hu. reflexivity.
Qed.

Lemma X1_process_message_reads_three_keys_witness :
  process_message payload_chat_keys tt = process_message payload_other_keys tt.
Proof.
  exact (X1_process_message_reads_three_keys unit payload_chat_keys
           payload_other_keys tt eq_refl eq_refl eq_refl).
Defined.

(** X2: when [process_message] returns [(text, session, user)], the payload
    does hold the key [text], its value is [text] itself and is true in a
    boolean context, and the other two components are what [get] gives for
    [chat_session_id] and [chat_user_id]. *)
Theorem X2_process_message_postcondition :
  forall (W : Type) (p : payload) (w : W) (text session user : pyval),
    fst (process_message p w) = Return (text, session, user) ->
    p !! "text" = Some text
    /\ truthy text = true
    /\ session = dict_get p "chat_session_id"
    /\ user = dict_get p "chat_user_id".
Proof.
  intros W p w text session user.
  unfold process_message, bind, ret, raise. simpl.
  destruct (truthy (dict_get p "text")) eqn:Et; simpl; [|discriminate].
  intros H. injection H as <- <- <-.
  split; [|split; [exact Et | split; reflexivity]].
  unfold dict_get in *. destruct (p !! "text") as [v|]; [reflexivity|].
  simpl in Et. discriminate.
Qed.

Lemma X2_process_message_postcondition_witness :
  payload_chat_keys !! "text" = Some (PStr "hi")
  /\ truthy (PStr "hi") = true
  /\ PStr "s1" = dict_get payload_chat_keys "chat_session_id"
  /\ PNone = dict_get payload_chat_keys "chat_user_id".
Proof.
  exact (X2_process_message_postcondition unit payload_chat_keys tt
           (PStr "hi") (PStr "s1") PNone eq_refl).
Defined.

Lemma dict_get_none_as_absent (p : payload) (k k' : string) :
  dict_get (<[ k := PNone ]> p) k' = dict_get (delete k p) k'.
Proof.
  unfold dict_get. destruct (decide (k = k')) as [<- | Hne].
  - rewrite lookup_insert_eq, lookup_delete_eq. reflexivity.
  - rewrite lookup_insert_ne, lookup_delete_ne by exact Hne. reflexivity.
Qed.

(** X3: a key whose value is [None] counts as a missing key: for every key,
    setting it to [None] and removing it give the same outcome (for [text],
    the [ValueError]; for the two identifiers, a [None] component). *)
Theorem X3_process_message_none_as_absent :
  forall (W : Type) (p : payload) (w : W) (k : string),
    process_message (<[ k := PNone ]> p) w = process_message (delete k p) w.
Proof.
  intros W p w k. unfold process_message, bind, ret, raise.
  rewrite !dict_get_none_as_absent. reflexivity.
Qed.

(** ** IdentificationAgent *)

(** Two calls commute, on every state. *)
Lemma identify_comm (t u : string) (s : IdentificationAgent) :
  snd (identify t (snd (identify u s))) = snd (identify u (snd (identify t s))).
Proof.
  unfold identify.
  destruct (token_accepted t), (token_accepted u); reflexivity.
Qed.

(** X4: the agent after any sequence of [identify] calls, from any state:
    if some token of the sequence was accepted it is identified with the
    account "uuid-1234", and otherwise it is as it was; and a further call
    returns true exactly when its token or an earlier one was accepted or
    the agent was identified to begin with. *)
Theorem X4_run_closed_form :
  forall (tokens : list string) (s : IdentificationAgent),
    run tokens s
      = (if existsb token_accepted tokens
         then mkAgent true (Some "uuid-1234") else s)
    /\ (forall t,
          fst (identify t (run tokens s))
            = token_accepted t || existsb token_accepted tokens || identified s).
Proof.
  assert (Hrun : forall tokens s,
            run tokens s
            = if existsb token_accepted tokens
              then mkAgent true (Some "uuid-1234") else s).
  { induction tokens as [|t ts IH]; intros s; [reflexivity|].
    cbn [run existsb]. rewrite IH.
    destruct (token_accepted t) eqn:E; cbn [orb].
    - rewrite (identify_accepted _ _ E). cbn [snd].
      destruct (existsb token_accepted ts); reflexivity.
    - rewrite (identify_rejected _ _ E). reflexivity. }
  intros tokens s. split; [apply Hrun|].
  intros t. rewrite Hrun.
  destruct (token_accepted t) eqn:E.
  - rewrite (identify_accepted _ _ E). reflexivity.
  - rewrite (identify_rejected _ _ E). cbn [fst orb].
    destruct (existsb token_accepted tokens); reflexivity.
Qed.

(** X5: the order of the calls does not matter: two sequences with the same
    tokens, in any order, leave the agent in the same state. *)
Theorem X5_run_order_independent :
  forall (ts us : list string) (s : IdentificationAgent),
    Permutation ts us -> run ts s = run us s.
Proof.
  intros ts us s Hp. revert s.
  induction Hp as [| x l l' _ IH | x y l | l l' l'' _ IH1 _ IH2]; intros s.
  - reflexivity.
  - cbn [run]. apply IH.
  - cbn [run]. rewrite identify_comm. reflexivity.
  - rewrite IH1. apply IH2.
Qed.

Lemma X5_run_order_independent_witness :
  run ["bad-token"; "valid-abc"; ""] init = run [""; "valid-abc"; "bad-token"] init.
Proof.
  exact (X5_run_order_independent
           ["bad-token"; "valid-abc"; ""] [""; "valid-abc"; "bad-token"] init
           (perm_trans
              (perm_swap "valid-abc" "bad-token" [""])
              (perm_trans
                 (perm_skip "valid-abc" (perm_swap "" "bad-token" []))
                 (perm_swap "" "valid-abc" ["bad-token"])))).
Defined.

Lemma prefix_length (a b : string) :
  String.prefix a b = true -> (String.length a <= String.length b)%nat.
Proof.
  revert b. induction a as [|c a IH]; intros b; [simpl; lia|].
  destruct b as [|d b]; simpl; [discriminate|].
  destruct (Ascii.ascii_dec c d); [|discriminate].
  intros H. apply IH in H. lia.
Qed.

(** X6: a token of fewer than six characters, the empty one included, is
    never accepted: the call returns the flag as it stands and leaves the
    agent unchanged. *)
Theorem X6_short_token_rejected :
  forall (t : string) (s : IdentificationAgent),
    (String.length t < 6)%nat ->
    identify t s = (identified s, s).
Proof.
  intros t s Hlen. apply identify_rejected.
  unfold token_accepted.
  destruct (String.prefix "valid-" t) eqn:E; [|apply andb_false_r].
  apply prefix_length in E. simpl in E. lia.
Qed.

Lemma X6_short_token_rejected_witness :
  identify "valid" init = (false, init).
Proof.
  exact (X6_short_token_rejected "valid" init (le_n 6)).
Defined.

(** ** calculate_discount *)

Local Open Scope Z_scope.

(** *** More on digits and on [_fix] *)

Lemma ndigits_fuel_ge_1 (fuel : nat) (c : Z) : 1 <= ndigits_fuel fuel c.
Proof.
  revert c. induction fuel as [|fuel IH]; intros c; cbn [ndigits_fuel]; [lia|].
  destruct (c <? 10); [lia|]. specialize (IH (c / 10)). lia.
Qed.

Lemma ndigits_ge_1 (c : Z) : 1 <= ndigits c.
Proof. apply ndigits_fuel_ge_1. Qed.

Lemma ndigits_mono (x y : Z) : 0 < x <= y -> ndigits x <= ndigits y.
Proof.
  intros [Hx Hxy].
  destruct (ndigits_spec x Hx) as (_ & Hlo & _).
  destruct (ndigits_spec y ltac:(lia)) as (Hny & _ & Hhi).
  destruct (Z.leb_spec (ndigits x) (ndigits y)) as [Hle | Hgt]; [exact Hle|].
  assert (10 ^ ndigits y <= 10 ^ (ndigits x - 1))
    by (apply Z.pow_le_mono_r; lia).
  lia.
Qed.

Lemma ndigits_mul_le (a b : Z) :
  0 <= a -> 0 <= b -> ndigits (a * b) <= ndigits a + ndigits b.
Proof.
  intros Ha Hb.
  pose proof (ndigits_ge_1 a) as Ha1. pose proof (ndigits_ge_1 b) as Hb1.
  destruct (Z.eq_dec (a * b) 0) as [-> | Hnz]; [rewrite ndigits_0; lia|].
  assert (Hpa : 0 < a) by nia. assert (Hpb : 0 < b) by nia.
  destruct (ndigits_spec a Hpa) as (_ & _ & Hhia).
  destruct (ndigits_spec b Hpb) as (_ & _ & Hhib).
  apply ndigits_le. split; [nia|].
  rewrite pow10_split by lia. nia.
Qed.

(** Below [Emax], [_fix] returns. *)
Lemma fix_in_range (s : bool) (c : N) (e : Z) :
  ndigits (Z.of_N c) + e - Ctx.prec < Ctx.Etop ->
  exists c' e', _fix s c e = Return (Fin s c' e').
Proof.
  intros Hr. unfold _fix. cbv zeta.
  destruct (Z.of_N c =? 0); [eexists _, _; reflexivity|].
  destruct (Z.gtb_spec (ndigits (Z.of_N c) + e - Ctx.prec) Ctx.Etop); [lia|].
  set (q := if ndigits (Z.of_N c) + e - Ctx.prec <? Ctx.Etiny
            then Ctx.Etiny else ndigits (Z.of_N c) + e - Ctx.prec).
  assert (Hq : q < Ctx.Etop).
  { subst q. destruct (_ <? _); [ctx; lia | lia]. }
  destruct (e <? q); [|eexists _, _; reflexivity].
  match goal with
  | |- context [if ?carry then q + 1 else q] => destruct carry
  end.
  - destruct (Z.gtb_spec (q + 1) Ctx.Etop); [lia|]. eexists _, _; reflexivity.
  - destruct (Z.gtb_spec q Ctx.Etop); [lia|]. eexists _, _; reflexivity.
Qed.

(** Above it, [_fix] raises [Overflow]. *)
Lemma fix_overflow (s : bool) (c : N) (e : Z) :
  0 < Z.of_N c ->
  Ctx.Etop < ndigits (Z.of_N c) + e - Ctx.prec ->
  _fix s c e = Raise Overflow.
Proof.
  intros Hc Hr. unfold _fix. cbv zeta.
  destruct (Z.eqb_spec (Z.of_N c) 0); [lia|].
  destruct (Z.gtb_spec (ndigits (Z.of_N c) + e - Ctx.prec) Ctx.Etop); [|lia].
  reflexivity.
Qed.

(** The minimum of two finite numbers is one of them. *)
Lemma py_min_fin (s1 s2 : bool) (c1 c2 : N) (e1 e2 : Z) :
  py_min (Fin s1 c1 e1) (Fin s2 c2 e2)
    = Return (if match _cmp (Fin s2 c2 e2) (Fin s1 c1 e1) with
                 | Lt => true | _ => false end
              then Fin s2 c2 e2 else Fin s1 c1 e1).
Proof. reflexivity. Qed.

(** X7: where no operation rounds, the number returned is explicit: up to
    tier 5 (and for a zero amount) it is the discount, with the coefficient
    [coeff * |5 * tier + 5|] and two more decimal places than the amount;
    above tier 5 it is the cap, with the coefficient [coeff * 3] and one
    more decimal place. *)
Theorem X7_calculate_discount_exact_result :
  forall (user_tier : Z) (s : bool) (c : N) (e : Z),
    is_negative (Fin s c e) = false ->
    exact_range user_tier c e ->
    calculate_discount user_tier (Fin s c e)
      = Return (if (0 <? c)%N && (5 <? user_tier)
                then Fin s (c * 3) (e - 1)
                else Fin (xorb s (5 * user_tier + 5 <? 0))
                         (c * Z.abs_N (5 * user_tier + 5)) (e - 2)).
Proof.
  intros user_tier s c e Hneg Hr.
  rewrite (calculate_discount_exact user_tier s c e Hneg Hr).
  reflexivity.
Qed.

Lemma X7_calculate_discount_exact_result_witness :
  calculate_discount 2 hundred = Return (Fin false 150000 (-4)).
Proof.
  exact (X7_calculate_discount_exact_result 2 false 10000 (-2) eq_refl
           (proj1 calculate_discount_examples)).
Defined.

(** X8: for a tier whose rate fits in 28 digits and a finite amount whose
    leading digit stays below [10 ^ Etop], the only exception is the
    [ValueError] of a negative amount: every other amount gives a result,
    rounded or not. *)
Theorem X8_calculate_discount_returns :
  forall (user_tier : Z) (s : bool) (c : N) (e : Z),
    5 * Z.abs user_tier < 10 ^ 28 ->
    Z.abs (5 * user_tier + 5) < 10 ^ 28 ->
    ndigits (Z.of_N c) + e <= Ctx.Etop ->
    if is_negative (Fin s c e)
    then calculate_discount user_tier (Fin s c e)
         = Raise (ValueError "Negative amount")
    else exists r, calculate_discount user_tier (Fin s c e) = Return r.
Proof.
  intros user_tier s c e Ht Hb Hr.
  destruct (is_negative (Fin s c e)) eqn:Hneg.
  { apply calculate_discount_negative, Hneg. }
  unfold calculate_discount. rewrite lt_zero. cbn [obind]. rewrite Hneg.
  destruct (base_exact user_tier Ht Hb) as (tiered & Hm & Ha).
  rewrite Hm. cbn [obind]. rewrite Ha. cbn [obind].
  set (k := Z.abs_N (5 * user_tier + 5)).
  pose proof (ndigits_ge_1 (Z.of_N c)) as Hc1.
  unfold __mul__, d_0_3. cbn [_check_nans].
  destruct (fix_in_range (xorb s (5 * user_tier + 5 <? 0)) (c * k) (e + -2))
    as (cd & ed & ->).
  { rewrite N2Z.inj_mul.
    pose proof (ndigits_mul_le (Z.of_N c) (Z.of_N k) ltac:(lia) ltac:(lia)).
    assert (ndigits (Z.of_N k) <= 28).
    { destruct (Z.eq_dec (Z.of_N k) 0) as [-> | Hnz]; [rewrite ndigits_0; lia|].
      apply ndigits_le. subst k. lia. }
    ctx. lia. }
  cbn [obind].
  destruct (fix_in_range (xorb s false) (c * 3) (e + -1)) as (cc & ec & ->).
  { rewrite N2Z.inj_mul.
    pose proof (ndigits_mul_le (Z.of_N c) (Z.of_N 3) ltac:(lia) ltac:(lia)).
    change (ndigits (Z.of_N 3)) with 1 in *. ctx. lia. }
  cbn [obind]. rewrite py_min_fin. eexists. reflexivity.
Qed.

Lemma X8_calculate_discount_returns_witness :
  exists r, calculate_discount 5 two_thirds = Return r.
Proof.
  exact (X8_calculate_discount_returns 5 false 6666666666666666666666666666 (-28)
           eq_refl eq_refl ltac:(vm_compute; discriminate)).
Defined.

(** X9: an amount too large for the context is not reported as a
    [ValueError] nor capped: for a tier that is not negative and a positive
    amount whose leading digit is beyond [10 ^ (Emax + 3)], the product
    [amount * base] overflows and the call raises [Overflow]. *)
Theorem X9_calculate_discount_overflow :
  forall (user_tier : Z) (c : N) (e : Z),
    0 <= user_tier ->
    5 * user_tier + 5 < 10 ^ 28 ->
    0 < Z.of_N c ->
    Ctx.Emax + 3 < ndigits (Z.of_N c) + e ->
    calculate_discount user_tier (Fin false c e) = Raise Overflow.
Proof.
  intros user_tier c e Ht Hb Hc Hbig.
  unfold calculate_discount. rewrite lt_zero. cbn [obind].
  assert (Hneg : is_negative (Fin false c e) = false) by reflexivity.
  rewrite Hneg.
  destruct (base_exact user_tier ltac:(lia) ltac:(lia)) as (tiered & Hm & Ha).
  rewrite Hm. cbn [obind]. rewrite Ha. cbn [obind].
  unfold __mul__ at 1. cbn [_check_nans].
  rewrite fix_overflow; [reflexivity | lia |].
  rewrite N2Z.inj_mul, N2Z.inj_abs_N.
  pose proof (ndigits_mono (Z.of_N c) (Z.of_N c * Z.abs (5 * user_tier + 5))
                ltac:(nia)).
  ctx. lia.
Qed.

Lemma X9_calculate_discount_overflow_witness :
  calculate_discount 0 (Fin false 1 1000003) = Raise Overflow.
Proof.
  exact (X9_calculate_discount_overflow 0 1 1000003
           ltac:(vm_compute; discriminate) eq_refl eq_refl eq_refl).
Defined.

(** X10: an infinite amount passes the check on negative amounts. With a
    rate that fits in 28 digits, [Infinity] gives [Infinity] for a tier
    from 0 on, [-Infinity] for a tier below -1 (the rate is negative, and
    the minimum keeps it), and at tier -1, where the rate is zero, the
    product [Infinity * 0] raises [InvalidOperation]. *)
Theorem X10_calculate_discount_infinite_amount :
  forall (user_tier : Z),
    5 * Z.abs user_tier < 10 ^ 28 ->
    Z.abs (5 * user_tier + 5) < 10 ^ 28 ->
    calculate_discount user_tier (Inf false)
      = if user_tier =? -1 then Raise InvalidOperation
        else Return (Inf (user_tier <? -1)).
Proof.
  intros user_tier Ht Hb.
  unfold calculate_discount. rewrite lt_zero. cbn [obind is_negative].
  destruct (base_exact user_tier Ht Hb) as (tiered & Hm & Ha).
  rewrite Hm. cbn [obind]. rewrite Ha. cbn [obind].
  unfold __mul__, d_0_3. cbn [_check_nans nonzero xorb].
  destruct (Z.eqb_spec user_tier (-1)) as [-> | Hne].
  - reflexivity.
  - destruct (N.eqb_spec (Z.abs_N (5 * user_tier + 5)) 0) as [H0 | _]; [lia|].
    cbn [negb obind]. change ((3 =? 0)%N) with false. cbn [negb obind].
    replace (5 * user_tier + 5 <? 0) with (user_tier <? -1)
      by (destruct (Z.ltb_spec user_tier (-1)), (Z.ltb_spec (5 * user_tier + 5) 0);
          reflexivity || lia).
    destruct (user_tier <? -1); reflexivity.
Qed.

Lemma X10_calculate_discount_infinite_amount_witness :
  calculate_discount (-3) (Inf false) = Return (Inf true).
Proof.
  exact (X10_calculate_discount_infinite_amount (-3) eq_refl eq_refl).
Defined.

(** A finite number that is not negative is a zero or has the sign [+]. *)
Lemma not_negative_cases (s : bool) (c : N) (e : Z) :
  is_negative (Fin s c e) = false -> c = 0%N \/ (s = false /\ 0 < Z.of_N c).
Proof.
  unfold is_negative. destruct (N.eqb_spec c 0) as [-> | Hnz]; [left; reflexivity|].
  destruct s; [discriminate|]. intros _. right. split; [reflexivity | lia].
Qed.

(** X11: the tier is not validated. Where no operation rounds, a tier below
    -1 makes the rate negative and a positive amount gets a negative
    discount. *)
Theorem X11_calculate_discount_negative_tier :
  forall (user_tier : Z) (c : N) (e : Z),
    user_tier < -1 ->
    0 < Z.of_N c ->
    exact_range user_tier c e ->
    exists r,
      calculate_discount user_tier (Fin false c e) = Return r
      /\ is_negative r = true.
Proof.
  intros user_tier c e Ht Hc Hr.
  rewrite (calculate_discount_exact user_tier false c e eq_refl Hr).
  destruct (Z.ltb_spec 5 user_tier) as [? | _]; [lia|].
  rewrite andb_false_r.
  destruct (Z.ltb_spec (5 * user_tier + 5) 0) as [_ | ?]; [|lia].
  eexists. split; [reflexivity|].
  cbn [is_negative xorb andb].
  destruct (N.eqb_spec (c * Z.abs_N (5 * user_tier + 5)) 0) as [H0 | _];
    [|reflexivity].
  apply N.eq_mul_0 in H0. lia.
Qed.

Lemma X11_calculate_discount_negative_tier_witness :
  exists r,
    calculate_discount (-3) hundred = Return r /\ is_negative r = true.
Proof.
  apply (X11_calculate_discount_negative_tier (-3) 10000 (-2));
    [lia | lia | unfold exact_range; ctx; repeat split; lia].
Defined.

Lemma rate_mono (t1 t2 : Z) : t1 <= t2 -> (rate t1 <= rate t2)%Q.
Proof. intros H. unfold rate, Qle, Qplus, Qmult, inject_Z. simpl. lia. Qed.

(** X12: where no operation rounds, the discount grows with the tier: for
    the same amount, a higher tier never gives less. *)
Theorem X12_calculate_discount_monotone_in_tier :
  forall (t1 t2 : Z) (s : bool) (c : N) (e : Z),
    is_negative (Fin s c e) = false ->
    exact_range t1 c e ->
    exact_range t2 c e ->
    t1 <= t2 ->
    exists s1 c1 e1 s2 c2 e2,
      calculate_discount t1 (Fin s c e) = Return (Fin s1 c1 e1)
      /\ calculate_discount t2 (Fin s c e) = Return (Fin s2 c2 e2)
      /\ (value s1 c1 e1 <= value s2 c2 e2)%Q.
Proof.
  intros t1 t2 s c e Hneg Hr1 Hr2 Hle.
  destruct (calculate_discount_exact_value t1 s c e Hneg Hr1)
    as (s1 & c1 & e1 & H1 & V1).
  destruct (calculate_discount_exact_value t2 s c e Hneg Hr2)
    as (s2 & c2 & e2 & H2 & V2).
  exists s1, c1, e1, s2, c2, e2.
  split; [exact H1|]. split; [exact H2|].
  rewrite V1, V2.
  apply Q.min_le_compat_r.
  apply Qmult_le_compat_l_nonneg;
    [apply rate_mono, Hle | apply value_not_negative, Hneg].
Qed.

Lemma X12_calculate_discount_monotone_in_tier_witness :
  exists s1 c1 e1 s2 c2 e2,
    calculate_discount 2 hundred = Return (Fin s1 c1 e1)
    /\ calculate_discount 7 hundred = Return (Fin s2 c2 e2)
    /\ (value s1 c1 e1 <= value s2 c2 e2)%Q.
Proof.
  exact (X12_calculate_discount_monotone_in_tier 2 7 false 10000 (-2)
           eq_refl
           (proj1 calculate_discount_examples)
           (proj1 (proj2 calculate_discount_examples))
           ltac:(vm_compute; discriminate)).
Defined.

(** *** Results that are not negative, rounding included *)

Lemma fix_not_negative (s : bool) (c : N) (e : Z) (d : Decimal) :
  s = false \/ c = 0%N ->
  _fix s c e = Return d ->
  exists c' e', d = Fin s c' e' /\ is_negative (Fin s c' e') = false.
Proof.
  intros [-> | ->] H.
  - destruct (fix_returns_fin _ _ _ _ H) as (c' & e' & ->).
    exists c', e'. split; reflexivity.
  - destruct (fix_zero_returns _ _ _ H) as (e' & ->).
    exists 0%N, e'. split; [reflexivity|]. unfold is_negative.
    rewrite andb_false_r. reflexivity.
Qed.

(** The product of a number that is not negative with a number of sign
    [+], when it returns. *)
Lemma mul_not_negative (s : bool) (c cb : N) (e eb : Z) (d : Decimal) :
  is_negative (Fin s c e) = false ->
  __mul__ (Fin s c e) (Fin false cb eb) = Return d ->
  _fix s (c * cb) (e + eb) = Return d
  /\ exists c' e', d = Fin s c' e' /\ is_negative (Fin s c' e') = false.
Proof.
  intros Hneg H. unfold __mul__ in H. cbn [_check_nans] in H.
  rewrite xorb_false_r in H. split; [exact H|].
  apply (fix_not_negative s (c * cb) (e + eb)); [|exact H].
  destruct (not_negative_cases s c e Hneg) as [-> | [-> _]];
    [right; apply N.mul_0_l | left; reflexivity].
Qed.

Lemma cmp_not_negative (s1 s2 : bool) (c1 c2 : N) (e1 e2 : Z) :
  is_negative (Fin s1 c1 e1) = false ->
  is_negative (Fin s2 c2 e2) = false ->
  _cmp (Fin s1 c1 e1) (Fin s2 c2 e2) = Lt
  <-> (value s1 c1 e1 < value s2 c2 e2)%Q.
Proof.
  intros H1 H2.
  destruct (not_negative_cases s1 c1 e1 H1) as [-> | [-> Hc1]];
    destruct (not_negative_cases s2 c2 e2 H2) as [-> | [-> Hc2]].
  - rewrite cmp_zeros, !value_zero. split; [discriminate|].
    intros H. exfalso. apply (Qlt_irrefl 0), H.
  - unfold _cmp. change ((0 =? 0)%N) with true. cbv iota.
    destruct (N.eqb_spec c2 0) as [? | _]; [lia|].
    rewrite value_zero. split; [intros _; apply value_pos, Hc2 | reflexivity].
  - unfold _cmp. destruct (N.eqb_spec c1 0) as [? | _]; [lia|].
    change ((0 =? 0)%N) with true. cbv iota.
    rewrite value_zero. split; [discriminate|].
    intros H. exfalso.
    apply (Qlt_irrefl 0), (Qlt_trans _ (value false c1 e1)); [|exact H].
    apply value_pos, Hc1.
  - apply cmp_nonneg.
Qed.

(** On numbers that are not negative, [min] returns the smaller value. *)
Lemma py_min_value (s1 s2 : bool) (c1 c2 : N) (e1 e2 : Z) :
  is_negative (Fin s1 c1 e1) = false ->
  is_negative (Fin s2 c2 e2) = false ->
  exists s c e,
    py_min (Fin s1 c1 e1) (Fin s2 c2 e2) = Return (Fin s c e)
    /\ is_negative (Fin s c e) = false
    /\ (value s c e == Qmin (value s1 c1 e1) (value s2 c2 e2))%Q.
Proof.
  intros H1 H2. rewrite py_min_fin.
  pose proof (cmp_not_negative s2 s1 c2 c1 e2 e1 H2 H1) as Hc.
  destruct (_cmp (Fin s2 c2 e2) (Fin s1 c1 e1)).
  2:{ exists s2, c2, e2. split; [reflexivity|]. split; [exact H2|].
      symmetry. apply Q.min_r, Qlt_le_weak, Hc. reflexivity. }
  all: exists s1, c1, e1; split; [reflexivity|]; split; [exact H1|].
  all: symmetry; apply Q.min_l, Qnot_lt_le; intros Hlt.
  all: apply Hc in Hlt; discriminate.
Qed.

(** The steps of a call on a finite amount that is not negative, when it
    returns and the tier is not negative. *)
Lemma calculate_discount_steps (user_tier : Z) (s : bool) (c : N) (e : Z)
    (r : Decimal) :
  0 <= user_tier ->
  is_negative (Fin s c e) = false ->
  calculate_discount user_tier (Fin s c e) = Return r ->
  exists tiered cb eb discount cap,
    __mul__ (of_int user_tier) d_0_05 = Return tiered
    /\ __add__ d_0_05 tiered = Return (Fin false cb eb)
    /\ __mul__ (Fin s c e) (Fin false cb eb) = Return discount
    /\ __mul__ (Fin s c e) d_0_3 = Return cap
    /\ py_min discount cap = Return r.
Proof.
  intros Ht Hneg. unfold calculate_discount.
  rewrite lt_zero. cbn [obind]. rewrite Hneg. intros H.
  apply obind_return in H as (tiered & Hmul & H).
  apply obind_return in H as (base & Hadd & H).
  apply obind_return in H as (discount & Hdisc & H).
  apply obind_return in H as (cap & Hcap & H).
  destruct (base_shape user_tier tiered base Ht Hmul Hadd)
    as (cb & eb & -> & _).
  exists tiered, cb, eb, discount, cap. repeat split; assumption.
Qed.

(** X13: for a tier that is not negative, a finite amount that is not
    negative never gets a negative discount, whether the products are
    rounded or not: whatever is returned is a finite number that is not
    negative. *)
Theorem X13_calculate_discount_not_negative :
  forall (user_tier : Z) (s : bool) (c : N) (e : Z) (r : Decimal),
    0 <= user_tier ->
    is_negative (Fin s c e) = false ->
    calculate_discount user_tier (Fin s c e) = Return r ->
    exists sr cr er,
      r = Fin sr cr er /\ is_negative r = false /\ (0 <= value sr cr er)%Q.
Proof.
  intros user_tier s c e r Ht Hneg H.
  destruct (calculate_discount_steps user_tier s c e r Ht Hneg H)
    as (tiered & cb & eb & discount & cap & _ & _ & Hd & Hc & Hmin).
  destruct (mul_not_negative s c cb e eb discount Hneg Hd)
    as (_ & cd & ed & -> & Hnd).
  destruct (mul_not_negative s c 3 e (-1) cap Hneg Hc)
    as (_ & cc & ec & -> & Hnc).
  destruct (py_min_value s s cd cc ed ec Hnd Hnc) as (sr & cr & er & Hr & Hnr & _).
  rewrite Hr in Hmin. injection Hmin as <-.
  exists sr, cr, er. split; [reflexivity|]. split; [exact Hnr|].
  apply value_not_negative, Hnr.
Qed.

Lemma X13_calculate_discount_not_negative_witness :
  exists sr cr er,
    Fin false 2000000000000000000000000000 (-28) = Fin sr cr er
    /\ is_negative (Fin false 2000000000000000000000000000 (-28)) = false
    /\ (0 <= value sr cr er)%Q.
Proof.
  exact (X13_calculate_discount_not_negative 5 false
           6666666666666666666666666666 (-28)
           (Fin false 2000000000000000000000000000 (-28))
           ltac:(vm_compute; discriminate) eq_refl
           ltac:(vm_compute; reflexivity)).
Defined.

(** Multiplying by a number of sign [+] keeps the order of the numbers
    that are not negative, rounding included. *)
Lemma mul_mono (s1 s2 : bool) (c1 c2 cb : N) (e1 e2 eb : Z)
    (c1' c2' : N) (e1' e2' : Z) :
  is_negative (Fin s1 c1 e1) = false ->
  is_negative (Fin s2 c2 e2) = false ->
  (value s1 c1 e1 <= value s2 c2 e2)%Q ->
  _fix s1 (c1 * cb) (e1 + eb) = Return (Fin s1 c1' e1') ->
  _fix s2 (c2 * cb) (e2 + eb) = Return (Fin s2 c2' e2') ->
  is_negative (Fin s1 c1' e1') = false ->
  is_negative (Fin s2 c2' e2') = false ->
  (value s1 c1' e1' <= value s2 c2' e2')%Q.
Proof.
  intros H1 H2 Hle F1 F2 N1 N2.
  destruct (N.eq_dec (c1 * cb)%N 0%N) as [Hz | Hnz].
  { rewrite Hz in F1. destruct (fix_zero_returns _ _ _ F1) as (e0 & E).
    injection E as -> ->. rewrite value_zero.
    apply value_not_negative, N2. }
  assert (Hc1 : c1 <> 0%N) by (intros ->; apply Hnz, N.mul_0_l).
  assert (Hcb : cb <> 0%N) by (intros ->; apply Hnz, N.mul_0_r).
  destruct (not_negative_cases s1 c1 e1 H1) as [? | [-> Hp1]]; [contradiction|].
  assert (Hp2 : s2 = false /\ 0 < Z.of_N c2).
  { destruct (not_negative_cases s2 c2 e2 H2) as [-> | ?]; [|assumption].
    exfalso. rewrite value_zero in Hle.
    apply (Qlt_irrefl 0), (Qlt_le_trans _ (value false c1 e1)); [|exact Hle].
    apply value_pos, Hp1. }
  destruct Hp2 as [-> Hp2].
  apply (fix_mono_value false false (c1 * cb) c1' (c2 * cb) c2'
           (e1 + eb) e1' (e2 + eb) e2'); [nia | nia | exact F1 | exact F2 |].
  rewrite !value_mul_pos.
  apply Qmult_le_compat_r; [exact Hle | apply value_nonneg].
Qed.

(** X14: for a tier that is not negative, the discount grows with the
    amount, rounding included: of two finite amounts that are not negative,
    the larger one never gets the smaller discount. *)
Theorem X14_calculate_discount_monotone_in_amount :
  forall (user_tier : Z) (s1 s2 : bool) (c1 c2 : N) (e1 e2 : Z)
         (r1 r2 : Decimal),
    0 <= user_tier ->
    is_negative (Fin s1 c1 e1) = false ->
    (value s1 c1 e1 <= value s2 c2 e2)%Q ->
    calculate_discount user_tier (Fin s1 c1 e1) = Return r1 ->
    calculate_discount user_tier (Fin s2 c2 e2) = Return r2 ->
    exists s1' c1' e1' s2' c2' e2',
      r1 = Fin s1' c1' e1' /\ r2 = Fin s2' c2' e2'
      /\ (value s1' c1' e1' <= value s2' c2' e2')%Q.
Proof.
  intros user_tier s1 s2 c1 c2 e1 e2 r1 r2 Ht Hn1 Hle R1 R2.
  assert (Hn2 : is_negative (Fin s2 c2 e2) = false).
  { destruct (is_negative (Fin s2 c2 e2)) eqn:E; [|reflexivity].
    apply is_negative_value in E. exfalso.
    apply (Qlt_irrefl 0), (Qle_lt_trans _ (value s2 c2 e2)); [|exact E].
    apply (Qle_trans _ (value s1 c1 e1)); [|exact Hle].
    apply value_not_negative, Hn1. }
  destruct (calculate_discount_steps user_tier s1 c1 e1 r1 Ht Hn1 R1)
    as (tiered & cb & eb & d1 & k1 & Hm & Ha & Hd1 & Hk1 & Hmin1).
  destruct (calculate_discount_steps user_tier s2 c2 e2 r2 Ht Hn2 R2)
    as (tiered' & cb' & eb' & d2 & k2 & Hm' & Ha' & Hd2 & Hk2 & Hmin2).
  rewrite Hm in Hm'. injection Hm' as <-.
  rewrite Ha in Ha'. injection Ha' as <- <-.
  destruct (mul_not_negative _ _ _ _ _ _ Hn1 Hd1) as (Fd1 & cd1 & ed1 & -> & Nd1).
  destruct (mul_not_negative _ _ _ _ _ _ Hn1 Hk1) as (Fk1 & ck1 & ek1 & -> & Nk1).
  destruct (mul_not_negative _ _ _ _ _ _ Hn2 Hd2) as (Fd2 & cd2 & ed2 & -> & Nd2).
  destruct (mul_not_negative _ _ _ _ _ _ Hn2 Hk2) as (Fk2 & ck2 & ek2 & -> & Nk2).
  destruct (py_min_value _ _ _ _ _ _ Nd1 Nk1) as (s1' & c1' & e1' & E1 & _ & V1).
  destruct (py_min_value _ _ _ _ _ _ Nd2 Nk2) as (s2' & c2' & e2' & E2 & _ & V2).
  rewrite E1 in Hmin1. injection Hmin1 as <-.
  rewrite E2 in Hmin2. injection Hmin2 as <-.
  exists s1', c1', e1', s2', c2', e2'.
  split; [reflexivity|]. split; [reflexivity|].
  rewrite V1, V2. apply Q.min_le_compat.
  - apply (mul_mono s1 s2 c1 c2 cb e1 e2 eb); assumption.
  - apply (mul_mono s1 s2 c1 c2 3 e1 e2 (-1)); assumption.
Qed.

Lemma X14_calculate_discount_monotone_in_amount_witness :
  exists s1' c1' e1' s2' c2' e2',
    Fin false 2000000000000000000000000000 (-28) = Fin s1' c1' e1'
    /\ Fin false 300000 (-4) = Fin s2' c2' e2'
    /\ (value s1' c1' e1' <= value s2' c2' e2')%Q.
Proof.
  exact (X14_calculate_discount_monotone_in_amount 5 false false
           6666666666666666666666666666 10000 (-28) (-2)
           (Fin false 2000000000000000000000000000 (-28))
           (Fin false 300000 (-4))
           ltac:(vm_compute; discriminate) eq_refl
           ltac:(vm_compute; discriminate)
           ltac:(vm_compute; reflexivity) ltac:(vm_compute; reflexivity)).
Defined.
